(** * The two-link arm with a replaceable end mass, and its actuator loop

    A shallow embedding of [main1.py]: the class [Arm] (its constructor,
    [set_end_mass] and [calculate_inverse_dynamics]) and the coroutine
    [main] that cycles the two servos; and of the slot of
    [ControlGUI.py] that hands a load to the arm.

    Numbers.  The Python code computes with floats.  They are modelled by
    exact rationals ([Q]): rounding, overflow and NaN arithmetic are not
    modelled, and numeric results are compared with [==].  Division by a
    zero divisor raising [ZeroDivisionError] is modelled ([Py.truediv]).
    Where rounding decides a property, the expression is also given on
    binary64 floats ([Binary64]).

    Effects.  A method mutates [self] and may raise: it is a function
    from the object before the call to a result (value or exception) and
    the object after the call.  A mutation made before an exception is
    raised stays, as in Python. *)

From Stdlib Require Import QArith Qabs ZArith List Lqa.
From Stdlib Require Import Lia.
From Stdlib Require String.
From Stdlib Require Floats.PrimFloat.
Import ListNotations.

Open Scope Q_scope.

(** ** Python results, exceptions and the method monad *)
Module Py.

Inductive exn : Type :=
| ZeroDivisionError
| AttributeError
| KeyError
| InvalidStateError
| TransportError.

Inductive result (A : Type) : Type :=
| Ok (a : A)
| Raise (e : exn).
Arguments Ok {A} a.
Arguments Raise {A} e.

(** A computation over a mutable object of type [S]. *)
Definition M (S A : Type) : Type := S -> result A * S.

Definition ret {S A} (a : A) : M S A := fun s => (Ok a, s).

Definition bind {S A B} (c : M S A) (k : A -> M S B) : M S B :=
  fun s =>
    match c s with
    | (Ok a, s') => k a s'
    | (Raise e, s') => (Raise e, s')
    end.

Definition gets {S A} (f : S -> A) : M S A := fun s => (Ok (f s), s).

Definition modify {S} (f : S -> S) : M S unit := fun s => (Ok tt, f s).

(** Lift a call that may raise and otherwise yields a new object. *)
Definition update {S} (f : S -> result S) : M S unit :=
  fun s =>
    match f s with
    | Ok s' => (Ok tt, s')
    | Raise e => (Raise e, s)
    end.

(** [a / b] on floats: raises when the divisor is zero. *)
Definition truediv {S} (a b : Q) : M S Q :=
  fun s => if Qeq_bool b 0 then (Raise ZeroDivisionError, s) else (Ok (a / b), s).

End Py.

Import Py.

Notation "x <- c ;; k" := (Py.bind c (fun x => k))
  (at level 61, c at next level, right associativity).
Notation "c ;;; k" := (Py.bind c (fun _ => k))
  (at level 61, right associativity).

(** ** The multibody toolkit, as far as [Arm] uses it

    [main1.py] builds its plant and context with an external multibody
    toolkit.  None of it is in the repository, so each call the class
    makes is modelled here from what the specification says the call
    achieves. *)
Module Drake.

Definition Vec3 : Type := (Q * Q * Q)%type.

Record RotationalInertia : Type := mkRotationalInertia
  { Ixx : Q; Iyy : Q; Izz : Q }.

Record SpatialInertia : Type := mkSpatialInertia
  { mass : Q; p_PScm_E : Vec3; G_SP_E : RotationalInertia }.

Inductive Body : Type := link1 | link2.

(** What [Finalize] freezes: the gravity vector and the two revolute
    joints (shoulder, elbow), each about the axis [0, 0, 1]. *)
Record Plant : Type := mkPlant
  { gravity_vector : Vec3; joint_axes : list (Z * Z * Z) }.

Definition num_positions (p : Plant) : nat := length (joint_axes p).
Definition num_velocities (p : Plant) : nat := length (joint_axes p).

(** Modelled from the spec: the context is the model's mutable state,
    "link geometry/mass", the end-mass parameter, each link's spatial
    inertia, and the positions and velocities last assigned.  A body
    added with the default [SpatialInertia()] and a parameter not yet
    set hold no number: [None]. *)
Record Context : Type := mkContext
  { parameter : option (list Q);
    M_link1 : option SpatialInertia;
    M_link2 : option SpatialInertia;
    positions : list Q;
    velocities : list Q }.

(** Modelled from the spec: [CreateDefaultContext] on the finalized
    plant, every joint at position and velocity zero ("returns all-zero
    q/v"), link 1 with the inertia it was added with. *)
Definition CreateDefaultContext (p : Plant) (M1 M2 : option SpatialInertia) : Context :=
  {| parameter := None;
     M_link1 := M1;
     M_link2 := M2;
     positions := repeat 0 (num_positions p);
     velocities := repeat 0 (num_velocities p) |}.

(** Modelled from the spec: "EndMassParameter, a single scalar ...
    mutated only through the mass-update operation"; [SetParameter]
    stores the value. *)
Definition SetParameter (c : Context) (value : list Q) : Context :=
  {| parameter := Some value;
     M_link1 := M_link1 c;
     M_link2 := M_link2 c;
     positions := positions c;
     velocities := velocities c |}.

(** Modelled from the spec: "the updated composite inertia is the one
    used by every inverse-dynamics query that starts after this call
    returns"; [SetBodySpatialInertiaInBodyFrame] replaces the body's
    spatial inertia in the context. *)
Definition SetBodySpatialInertiaInBodyFrame
    (c : Context) (b : Body) (M : SpatialInertia) : Context :=
  match b with
  | link1 =>
      {| parameter := parameter c; M_link1 := Some M; M_link2 := M_link2 c;
         positions := positions c; velocities := velocities c |}
  | link2 =>
      {| parameter := parameter c; M_link1 := M_link1 c; M_link2 := Some M;
         positions := positions c; velocities := velocities c |}
  end.

(** Modelled from the spec: "fails with InvalidStateError if q/v/vd
    lengths don't match the joint count"; otherwise "sets the model's
    positions ... to q". *)
Definition SetPositions (p : Plant) (c : Context) (q : list Q) : result Context :=
  if Nat.eqb (length q) (num_positions p)
  then Ok {| parameter := parameter c; M_link1 := M_link1 c; M_link2 := M_link2 c;
             positions := q; velocities := velocities c |}
  else Raise InvalidStateError.

(** Modelled from the spec: as [SetPositions], for the velocities. *)
Definition SetVelocities (p : Plant) (c : Context) (v : list Q) : result Context :=
  if Nat.eqb (length v) (num_velocities p)
  then Ok {| parameter := parameter c; M_link1 := M_link1 c; M_link2 := M_link2 c;
             positions := positions c; velocities := v |}
  else Raise InvalidStateError.

(** [MultibodyForces(plant)]: the applied forces, all zero. *)
Definition MultibodyForces (p : Plant) : list Q := repeat 0 (num_velocities p).

(** The rigid-body recursion itself: the generalized forces for a plant,
    a context, accelerations and applied forces. *)
Definition Solver : Type := Plant -> Context -> list Q -> list Q -> list Q.

(** Modelled from the spec: [CalcInverseDynamics] checks the length of
    [vd] against the joint count ("fails with InvalidStateError") and
    otherwise returns "an ordered sequence of torques, one per joint",
    computed by the recursion from the context. *)
Definition CalcInverseDynamics
    (solve : Solver) (p : Plant) (c : Context) (vd forces : list Q)
  : result (list Q) :=
  if Nat.eqb (length vd) (num_velocities p)
  then Ok (solve p c vd forces)
  else Raise InvalidStateError.

End Drake.

(** ** class Arm *)
Module Arm.

Import Drake.

(** The attributes of an [Arm] object that the methods read or write:
    the four numbers kept by the constructor, the finalized plant and
    the context. *)
Record Arm : Type := mkArm
  { m1 : Q; m2 : Q; l1 : Q; l2 : Q;
    plant : Plant;
    context : Context }.

Definition set_context (c : Context) (self : Arm) : Arm :=
  {| m1 := m1 self; m2 := m2 self; l1 := l1 self; l2 := l2 self;
     plant := plant self; context := c |}.

(** [def set_end_mass(self, end_mass)] *)
Definition set_end_mass (end_mass : Q) : M Arm unit :=
  self <- gets (fun self => self) ;;
  let total_mass2 := m2 self + end_mass in
  com2 <- truediv (m2 self * l2 self / 2 + end_mass * l2 self) total_mass2 ;;
  let I2 := m2 self * (l2 self / 2) ^ 2 + end_mass * l2 self ^ 2 in
  modify (fun self => set_context (SetParameter (context self) [end_mass]) self) ;;;
  let M2 := {| mass := total_mass2;
               p_PScm_E := (com2, 0, 0);
               G_SP_E := mkRotationalInertia I2 I2 I2 |} in
  modify (fun self =>
    set_context (SetBodySpatialInertiaInBodyFrame (context self) link2 M2) self).

(** [def __init__(self, m1, m2, l1, l2, initial_end_mass)], up to its
    last statement: link 1 gets its fixed inertia, link 2 the default
    one, both joints turn about z, gravity is [0, -9.81, 0], and the
    context is the plant's default one. *)
Definition assembled (m1 m2 l1 l2 : Q) : Arm :=
  let M1 := {| mass := m1;
               p_PScm_E := (l1 / 2, 0, 0);
               G_SP_E := mkRotationalInertia
                           (m1 * l1 ^ 2 / 12) (m1 * l1 ^ 2 / 12) (m1 * l1 ^ 2 / 12) |} in
  let plant := {| gravity_vector := (0, - 9.81, 0);
                  joint_axes := [(0, 0, 1)%Z; (0, 0, 1)%Z] |} in
  {| m1 := m1; m2 := m2; l1 := l1; l2 := l2;
     plant := plant;
     context := CreateDefaultContext plant (Some M1) None |}.

(** The constructor: its last statement is
    [self.set_end_mass(initial_end_mass)]; an exception raised there
    leaves no object. *)
Definition __init__ (m1 m2 l1 l2 initial_end_mass : Q) : result Arm :=
  match set_end_mass initial_end_mass (assembled m1 m2 l1 l2) with
  | (Ok _, self) => Ok self
  | (Raise e, _) => Raise e
  end.

Section WithSolver.

(** The toolkit's inverse-dynamics recursion is not in the repository;
    the methods are stated for any. *)
Variable solve : Solver.

(** [def calculate_inverse_dynamics(self, q, v, vd)] *)
Definition calculate_inverse_dynamics (q v vd : list Q) : M Arm (list Q) :=
  update (fun self =>
    match SetPositions (plant self) (context self) q with
    | Ok c => Ok (set_context c self)
    | Raise e => Raise e
    end) ;;;
  update (fun self =>
    match SetVelocities (plant self) (context self) v with
    | Ok c => Ok (set_context c self)
    | Raise e => Raise e
    end) ;;;
  self <- gets (fun self => self) ;;
  fun s =>
    (CalcInverseDynamics solve (plant self) (context self) vd
       (MultibodyForces (plant self)), s).

(** The query the shoulder torque is read from: set the end mass,
    then solve with the arm horizontal and at rest. *)
Definition static_torques (end_mass : Q) : M Arm (list Q) :=
  set_end_mass end_mass ;;;
  calculate_inverse_dynamics [0; 0] [0; 0] [0; 0].

End WithSolver.

(** The object [set_end_mass] leaves behind when its division succeeds. *)
Definition updated (self : Arm) (end_mass : Q) : Arm :=
  let total_mass2 := m2 self + end_mass in
  let com2 := (m2 self * l2 self / 2 + end_mass * l2 self) / total_mass2 in
  let I2 := m2 self * (l2 self / 2) ^ 2 + end_mass * l2 self ^ 2 in
  {| m1 := m1 self; m2 := m2 self; l1 := l1 self; l2 := l2 self;
     plant := plant self;
     context :=
       {| parameter := Some [end_mass];
          M_link1 := M_link1 (context self);
          M_link2 := Some {| mass := total_mass2;
                             p_PScm_E := (com2, 0, 0);
                             G_SP_E := mkRotationalInertia I2 I2 I2 |};
          positions := positions (context self);
          velocities := velocities (context self) |} |}.


(** Two objects that agree on everything but the positions and
    velocities last assigned. *)
Definition same_model (a b : Arm) : Prop :=
  m1 a = m1 b /\ m2 a = m2 b /\ l1 a = l1 b /\ l2 a = l2 b /\
  plant a = plant b /\
  parameter (context a) = parameter (context b) /\
  M_link1 (context a) = M_link1 (context b) /\
  M_link2 (context a) = M_link2 (context b).

(** The arm the operator window is started with:
    [__init__ 0.5 0.5 0.5 0.5 0.5]. *)
Definition gui_arm : Arm := snd (set_end_mass 0.5 (assembled 0.5 0.5 0.5 0.5)).

End Arm.

(** ** The servo library and the transport, as far as [main] uses them *)
Module Moteus.

Inductive Register : Type := POSITION | VELOCITY.

Definition Register_eqb (a b : Register) : bool :=
  match a, b with
  | POSITION, POSITION | VELOCITY, VELOCITY => true
  | _, _ => false
  end.

(** [moteus.Result]: the servo it came from and a dict of registers. *)
Record Result : Type := mkResult
  { arbitration_id : Z; values : list (Register * Q) }.

Record Controller : Type := mkController { id : Z }.

(** A command frame.  [position = None] is [math.nan], and
    [feedforward_torque = None] the keyword left out. *)
Inductive Command : Type :=
| Stop (servo : Z)
| Position (servo : Z) (position : option Q) (velocity : Q)
           (feedforward_torque : option Q) (query : bool).

Definition make_stop (c : Controller) : Command := Stop (id c).

Definition make_position (c : Controller) (feedforward_torque : option Q)
    (position : option Q) (velocity : Q) (query : bool) : Command :=
  Position (id c) position velocity feedforward_torque query.

Definition servo_of (c : Command) : Z :=
  match c with Stop s => s | Position s _ _ _ _ => s end.

Definition is_position (c : Command) : bool :=
  match c with Stop _ => false | Position _ _ _ _ _ => true end.

(** What [transport.cycle] hands back.  The comments in [main] describe
    a list of results; a list has no attribute [values].  The second
    form is an iterable object that also has a [values] dict. *)
Inductive Results : Type :=
| ResultList (rs : list Result)
| ResultObject (vals : list (Register * Q)) (rs : list Result).

Definition iter (r : Results) : list Result :=
  match r with ResultList rs => rs | ResultObject _ rs => rs end.

(** [results.values] *)
Definition getattr_values (r : Results) : result (list (Register * Q)) :=
  match r with
  | ResultList _ => Raise AttributeError
  | ResultObject vals _ => Ok vals
  end.

(** [d[k]] on a dict with register keys *)
Fixpoint getitem (d : list (Register * Q)) (k : Register) : result Q :=
  match d with
  | [] => Raise KeyError
  | (k', x) :: d' => if Register_eqb k k' then Ok x else getitem d' k
  end.

(** [d[k]] on the dict of controllers *)
Fixpoint getservo (d : list (Z * Controller)) (k : Z) : result Controller :=
  match d with
  | [] => Raise KeyError
  | (k', x) :: d' => if Z.eqb k k' then Ok x else getservo d' k
  end.

End Moteus.

(** ** async def main() *)
Module Loop.

Import Moteus.

Inductive Event : Type :=
| EvSubmit (commands : list Command)   (* transport.cycle called *)
| EvComplete                           (* ... and awaited to its return *)
| EvPrint (line : list (Z * Q * Q))
| EvSleep (seconds : Q).

(** The surroundings of a run: what the k-th call of [transport.cycle]
    answers (a result or an exception) and how long it takes. *)
Record Env : Type := mkEnv
  { reply : nat -> list Command -> result Results;
    latency : nat -> Q }.

(** The wall clock, the number of cycles called so far, and what has
    happened, oldest first, each event with the time it happened at. *)
Record World : Type := mkWorld
  { clock : Q; cycles : nat; log : list (Q * Event) }.

Definition emit (e : Event) (w : World) : World :=
  {| clock := clock w; cycles := cycles w; log := log w ++ [(clock w, e)] |}.

Definition elapse (seconds : Q) (w : World) : World :=
  {| clock := clock w + seconds; cycles := cycles w; log := log w |}.

Definition lift {A} (r : result A) : M World A := fun w => (r, w).

Definition servo_bus_map : list (Z * list Z) := [(1, [1; 2])%Z].

(** [{servo_id : moteus.Controller(id=servo_id, ...) for servo_id in [1, 2]}] *)
Definition servos : list (Z * Controller) :=
  map (fun servo_id => (servo_id, mkController servo_id)) [1; 2]%Z.

(** [[x.make_stop() for x in servos.values()]] *)
Definition stop_commands : list Command := map (fun kv => make_stop (snd kv)) servos.

Section Run.

Variable math_sin : Q -> Q.
Variable env : Env.

(** [time.time()] *)
Definition time_time : M World Q := gets clock.

(** [await transport.cycle(commands)] *)
Definition cycle (commands : list Command) : M World Results :=
  fun w =>
    let w1 := emit (EvSubmit commands) w in
    let w2 := {| clock := clock w1 + latency env (cycles w1);
                 cycles := S (cycles w1);
                 log := log w1 |} in
    match reply env (cycles w) commands with
    | Ok r => (Ok r, emit EvComplete w2)
    | Raise e => (Raise e, w2)
    end.

(** The world right after a call of [transport.cycle], before it is known
    whether the call returned. *)
Definition submitted (commands : list Command) (w : World) : World :=
  {| clock := clock w + latency env (cycles w);
     cycles := S (cycles w);
     log := log w ++ [(clock w, EvSubmit commands)] |}.

(** [await asyncio.sleep(seconds)] *)
Definition sleep (seconds : Q) : M World unit :=
  modify (fun w => elapse seconds (emit (EvSleep seconds) w)).

(** The generator inside [print]: for each result its id, position
    and velocity, in that order. *)
Fixpoint rows (rs : list Result) : result (list (Z * Q * Q)) :=
  match rs with
  | [] => Ok []
  | r :: rs' =>
      match getitem (values r) POSITION with
      | Raise e => Raise e
      | Ok p =>
          match getitem (values r) VELOCITY with
          | Raise e => Raise e
          | Ok v =>
              match rows rs' with
              | Raise e => Raise e
              | Ok t => Ok ((arbitration_id r, p, v) :: t)
              end
          end
      end
  end.

Definition print (line : list (Z * Q * Q)) : M World unit :=
  modify (emit (EvPrint line)).

(** The two position commands of an iteration that read the clock at
    [now]. *)
Definition commands_at (s1 s2 : Controller) (now : Q) : list Command :=
  [ make_position s1 (Some 0) None (0.1 * math_sin now) true;
    make_position s2 None None (0.1 * math_sin (now + 1)) true ].

(** The body of [while True]. *)
Definition body : M World unit :=
  now <- time_time ;;
  s1 <- lift (getservo servos 1) ;;
  s2 <- lift (getservo servos 2) ;;
  let commands := commands_at s1 s2 now in
  results <- cycle commands ;;
  vals <- lift (getattr_values results) ;;
  q <- lift (getitem vals POSITION) ;;
  let v := VELOCITY in
  let vd := 0 in
  line <- lift (rows (iter results)) ;;
  print line ;;;
  sleep 0.02.

(** [while True: body], cut after [n] iterations. *)
Fixpoint while_true (n : nat) : M World unit :=
  match n with
  | O => ret tt
  | S n' => body ;;; while_true n'
  end.

(** [main], with its loop cut after [n] iterations: a run of [main]
    either raises or, for every [n], passes through [main n]. *)
Definition main (n : nat) : M World unit :=
  cycle stop_commands ;;;
  while_true n.

End Run.

(** The world [main] is started in, at wall-clock time [t0]. *)
Definition start (t0 : Q) : World := {| clock := t0; cycles := 0; log := [] |}.

(** A transport for trying the loop: every cycle takes 5 ms and hands
    back, for both servos, position and velocity zero, in an object
    that can be iterated and has a [values] dict. *)
Definition bench_env : Env :=
  let regs := [(POSITION, 0); (VELOCITY, 0)] in
  {| reply := fun _ _ => Ok (ResultObject regs [mkResult 1 regs; mkResult 2 regs]);
     latency := fun _ => 0.005 |}.

End Loop.

(** ** What the specification says of the update and of the solver *)
Module Spec.

Import Drake.

(** "total mass = link2Mass + newMass" *)
Definition total_mass (link2Mass newMass : Q) : Q := link2Mass + newMass.

(** "the mass-weighted average of link-2's own half-length centroid and
    the end mass's full-length position" *)
Definition com_offset (link2Mass link2Length newMass : Q) : Q :=
  (link2Mass * (link2Length / 2) + newMass * link2Length) / (link2Mass + newMass).

(** "the sum of link-2's own inertia about its centroid and the end
    mass's point-mass contribution at full link length" *)
Definition rotational_inertia (link2Mass link2Length newMass : Q) : Q :=
  link2Mass * ((link2Length / 2) * (link2Length / 2))
  + newMass * (link2Length * link2Length).

Section Trig.

(** Cosine and sine on the numbers of the model. *)
Variables cos sin : Q -> Q.

(** Modelled from the spec: "under gravity".  The moment about the
    joint axis z, through the body origin, that holds a body turned by
    [theta] against the gravity [g]: minus the
    z component of (R_z(theta) p) x (mass * g).  A body whose inertia
    is unset holds no number and contributes no term; no method of
    [Arm] queries the model in that state. *)
Definition holding_moment (g : Vec3) (M : option SpatialInertia) (theta : Q) : Q :=
  match M with
  | None => 0
  | Some M =>
      let '(gx, gy, _) := g in
      let '(px, py, _) := p_PScm_E M in
      let x := px * cos theta - py * sin theta in
      let y := px * sin theta + py * cos theta in
      - (mass M * (x * gy - y * gx))
  end.

(** Modelled from the spec: "under ... current inertia".  The moment
    that gives the body the angular acceleration [alpha] about z. *)
Definition inertial_moment (M : option SpatialInertia) (alpha : Q) : Q :=
  match M with
  | None => 0
  | Some M => Izz (G_SP_E M) * alpha
  end.

(** Modelled from the spec: the toolkit's inverse-dynamics recursion,
    which is not in the repository.  "computes, via standard
    rigid-body recursive dynamics, the joint generalized forces
    required to produce acceleration vd under gravity and current
    inertia (including the end-mass contribution)", for the chain
    the constructor builds: "two revolute joints in series (shoulder,
    elbow), both with a fixed rotation axis, connected
    world->link1->link2", each joint placed at the origin of the body
    frames it connects, so that link 1 is turned by q[0] and link 2
    by q[0] + q[1] about z.  The elbow carries link 2, the shoulder
    carries both links; applied forces are subtracted. *)
Definition inverse_dynamics : Solver :=
  fun p c vd forces =>
    let theta1 := nth 0 (positions c) 0 in
    let theta2 := theta1 + nth 1 (positions c) 0 in
    let alpha1 := nth 0 vd 0 in
    let alpha2 := alpha1 + nth 1 vd 0 in
    let on_link1 :=
      inertial_moment (M_link1 c) alpha1
      + holding_moment (gravity_vector p) (M_link1 c) theta1 in
    let on_link2 :=
      inertial_moment (M_link2 c) alpha2
      + holding_moment (gravity_vector p) (M_link2 c) theta2 in
    [on_link1 + on_link2 - nth 0 forces 0; on_link2 - nth 1 forces 0].

End Trig.

(** "newMass >= 0 ... negative mass [is] surfaced immediately to the
    caller" as [InvalidStateError], the model left as it was. *)
Definition rejects_negative_mass (self : Arm.Arm) (newMass : Q) : Prop :=
  newMass < 0 ->
  Arm.set_end_mass newMass self = (Raise InvalidStateError, self).

(** "the cycle period (20 ms)" *)
Definition cycle_period : Q := 0.02.

(** "sleep the remainder of the fixed cycle period": an iteration that
    starts in [w] and runs to its end has, as its last event, a sleep
    whose duration is the period less the time the iteration had taken
    when the sleep began. *)
Definition sleeps_the_remainder
    (math_sin : Q -> Q) (env : Loop.Env) (w : Loop.World) : Prop :=
  forall w', Loop.body math_sin env w = (Ok tt, w') ->
    exists before t seconds,
      Loop.log w' = before ++ [(t, Loop.EvSleep seconds)] /\
      seconds == cycle_period - (t - Loop.clock w).

End Spec.

(** ** A caller of [Arm]: any sequence of method calls *)
Module Session.

Import Drake Arm.

Inductive Call : Type :=
| SetEndMass (end_mass : Q)
| InverseDynamics (q v vd : list Q).

Section WithSolver.

Variable solve : Solver.

(** One method call on the object.  The caller keeps the object, as it
    is after the call, whether the call returned or raised. *)
Definition call (c : Call) (self : Arm) : Arm :=
  match c with
  | SetEndMass end_mass => snd (set_end_mass end_mass self)
  | InverseDynamics q v vd => snd (calculate_inverse_dynamics solve q v vd self)
  end.

Definition calls (cs : list Call) (self : Arm) : Arm :=
  fold_left (fun self c => call c self) cs self.

End WithSolver.

(** The end-mass parameter and link 2's inertia belong together: the
    inertia is the one [set_end_mass] computes for the stored end mass. *)
Definition consistent (self : Arm) : Prop :=
  exists end_mass,
    ~ m2 self + end_mass == 0 /\
    parameter (context self) = Some [end_mass] /\
    M_link2 (context self) = M_link2 (context (updated self end_mass)).

(** Two objects with the same constructor numbers, the same plant and
    the same link 1. *)
Definition same_links (a b : Arm) : Prop :=
  m1 a = m1 b /\ m2 a = m2 b /\ l1 a = l1 b /\ l2 a = l2 b /\
  plant a = plant b /\ M_link1 (context a) = M_link1 (context b).

End Session.

(** ** Reading the log of a run *)
Module Trace.

Import Moteus Loop.

(** A submission is the position batch of an iteration that read the
    clock at the time the submission carries. *)
Definition running_batch (math_sin : Q -> Q) (te : Q * Event) : Prop :=
  match snd te with
  | EvSubmit commands =>
      commands = commands_at math_sin (mkController 1) (mkController 2) (fst te)
  | _ => True
  end.

(** A command a servo may be sent while running: position left to the
    servo ([nan]), a reply asked for, velocity within [bound]. *)
Definition gentle (bound : Q) (c : Command) : Prop :=
  match c with
  | Stop _ => True
  | Position servo position velocity _ query =>
      (servo = 1%Z \/ servo = 2%Z) /\ position = None /\ query = true /\
      - bound <= velocity /\ velocity <= bound
  end.

(** The times at which commands were submitted, oldest first. *)
Fixpoint submit_times (l : list (Q * Event)) : list Q :=
  match l with
  | [] => []
  | (t, EvSubmit _) :: l' => t :: submit_times l'
  | _ :: l' => submit_times l'
  end.

(** Each time follows the one before by less than [bound]. *)
Fixpoint spaced_within (bound : Q) (ts : list Q) : Prop :=
  match ts with
  | [] => True
  | t1 :: rest =>
      match rest with
      | [] => True
      | t2 :: _ => t2 - t1 < bound /\ spaced_within bound rest
      end
  end.

(** The time the cycles number [k], ..., [k + n - 1] take together. *)
Fixpoint latencies (env : Env) (k n : nat) : Q :=
  match n with
  | O => 0
  | S n' => latency env k + latencies env (S k) n'
  end.

(** A result that carries both registers [print] reads. *)
Definition has_registers (r : Result) : bool :=
  match getitem (values r) POSITION, getitem (values r) VELOCITY with
  | Ok _, Ok _ => true
  | _, _ => false
  end.

(** The world after the stop cycle of [main], when it returned. *)
Definition stopped (env : Env) (t0 : Q) : World :=
  emit EvComplete (submitted env stop_commands (start t0)).

Definition count_events (p : Event -> bool) (l : list (Q * Event)) : nat :=
  length (filter (fun te => p (snd te)) l).

Definition is_submit (e : Event) : bool :=
  match e with EvSubmit _ => true | _ => false end.

Definition is_sleep (e : Event) : bool :=
  match e with EvSleep _ => true | _ => false end.

Definition is_print (e : Event) : bool :=
  match e with EvPrint _ => true | _ => false end.

End Trace.

(** ** ControlGUI.py: the operator window *)
Module ControlGUI.

Import Drake Arm.
Import String.

(** What a slot of the window ends with: it returns, or raises an
    exception of the arm, or raises [TypeError]. *)
Inductive Completion : Type :=
| Returned
| ArmRaised (e : exn)
| TypeError.

(** The window: the arm it was given (the caller's object, not a copy),
    the text of the load label, and what has been printed. *)
Record ArmControlGUI : Type := mkGUI
  { arm : Arm; load_label : String.string; stdout : list String.string }.

Definition set_arm (a : Arm) (self : ArmControlGUI) : ArmControlGUI :=
  {| arm := a; load_label := load_label self; stdout := stdout self |}.

Definition setText (text : String.string) (self : ArmControlGUI) : ArmControlGUI :=
  {| arm := arm self; load_label := text; stdout := stdout self |}.

Definition print (text : String.string) (self : ArmControlGUI) : ArmControlGUI :=
  {| arm := arm self; load_label := load_label self; stdout := stdout self ++ [text] |}.

(** [def __init__(self, arm)] with [initUI]: the label starts with a
    fixed text. *)
Definition __init__ (arm : Arm) : ArmControlGUI :=
  {| arm := arm; load_label := "Current Load: 0.2 kg"%string; stdout := [] |}.

(** [load_values], one button each. *)
Definition load_values : list Q := [0.2; 1.0; 2.0; 3.0; 4.0; 5.0].

(** [await v] on the value a plain method returned: [None] cannot be
    awaited, the expression raises [TypeError]. *)
Definition await (v : unit) : option unit :=
  match v with tt => None end.

Section Format.

(** [f"{x:.1f}"] *)
Variable format_1f : Q -> String.string.

(** [async def set_load(self, load_value)] *)
Definition set_load (load_value : Q) (self : ArmControlGUI)
  : Completion * ArmControlGUI :=
  match set_end_mass load_value (arm self) with
  | (Raise e, a) => (ArmRaised e, set_arm a self)
  | (Ok none, a) =>
      let self := set_arm a self in
      match await none with
      | None => (TypeError, self)
      | Some _ =>
          let self :=
            setText (String.append "Current Load: "
                       (String.append (format_1f load_value) " kg")) self in
          let self :=
            print (String.append "Updated load to: "
                     (String.append (format_1f load_value) " kg")) self in
          (Returned, self)
      end
  end.

(** The button number [i], clicked: [lambda _, l=load: self.set_load(l)]
    with the load the button was made for. *)
Definition click (i : nat) (self : ArmControlGUI) : Completion * ArmControlGUI :=
  match nth_error load_values i with
  | Some l => set_load l self
  | None => (Returned, self)
  end.

End Format.

End ControlGUI.

(** ** Line 72 of [main1.py] on the floats the interpreter computes with *)
Module Binary64.

Import PrimFloat.

(** [total_mass2] and [com2] of [set_end_mass], operation by operation,
    on binary64 floats rounded to nearest; a zero divisor raises. *)
Definition com2 (m2 l2 end_mass : float) : result float :=
  let total_mass2 := (m2 + end_mass)%float in
  if (total_mass2 =? 0)%float then Raise ZeroDivisionError
  else Ok ((m2 * l2 / 2 + end_mass * l2) / total_mass2)%float.


End Binary64.

(** * Properties of [Arm] *)
Module ArmFacts.

Import Drake Arm.


Lemma set_end_mass_ok (self : Arm) (end_mass : Q) :
  Qeq_bool (m2 self + end_mass) 0 = false ->
  set_end_mass end_mass self = (Ok tt, updated self end_mass).
Proof.
  intros H. unfold set_end_mass, bind, gets, truediv, modify. rewrite H.
  reflexivity.
Qed.

Lemma set_end_mass_zero (self : Arm) (end_mass : Q) :
  Qeq_bool (m2 self + end_mass) 0 = true ->
  set_end_mass end_mass self = (Raise ZeroDivisionError, self).
Proof.
  intros H. unfold set_end_mass, bind, gets, truediv. rewrite H. reflexivity.
Qed.

Lemma Qeq_bool_nonzero (x : Q) : ~ x == 0 -> Qeq_bool x 0 = false.
Proof.
  intros H. destruct (Qeq_bool x 0) eqn:E; [|reflexivity].
  apply Qeq_bool_eq in E. contradiction.
Qed.

Lemma Qeq_bool_zero (x : Q) : x == 0 -> Qeq_bool x 0 = true.
Proof. intros H. apply Qeq_eq_bool. exact H. Qed.

Lemma total_mass2_pos (a b : Q) : 0 < a -> 0 <= b -> 0 < a + b.
Proof. intros Ha Hb. lra. Qed.

Lemma total_mass2_nonzero (a b : Q) : 0 < a -> 0 <= b -> Qeq_bool (a + b) 0 = false.
Proof.
  intros Ha Hb. apply Qeq_bool_nonzero. intros E.
  pose proof (total_mass2_pos a b Ha Hb) as P. rewrite E in P.
  exact (Qlt_irrefl 0 P).
Qed.

Lemma gui_arm_constructed : __init__ 0.5 0.5 0.5 0.5 0.5 = Ok gui_arm.
Proof. reflexivity. Qed.

(** The operator window's arm: link 2 weighs 1 kg in all, its centre of
    mass sits at 0.375 m, its rotational inertia is 0.15625. *)
Example gui_arm_link2 :
  match M_link2 (context gui_arm) with
  | Some M2 =>
      Qeq_bool (mass M2) 1 && Qeq_bool (fst (fst (p_PScm_E M2))) 0.375
      && Qeq_bool (Izz (G_SP_E M2)) 0.15625
  | None => false
  end = true.
Proof. reflexivity. Qed.

Example no_arm_with_opposite_end_mass :
  __init__ 0.5 0.5 0.5 0.5 (- 0.5) = Raise ZeroDivisionError.
Proof. reflexivity. Qed.

(** The three composite quantities the code computes are the ones the
    specification words describe. *)
Lemma com2_is_weighted_average (a l e : Q) :
  (a * l / 2 + e * l) / (a + e) == Spec.com_offset a l e.
Proof.
  unfold Spec.com_offset. apply Qmult_comp; [|reflexivity].
  apply Qplus_comp; [|reflexivity]. unfold Qdiv. ring.
Qed.

Lemma I2_is_sum_of_inertias (a l e : Q) :
  a * (l / 2) ^ 2 + e * l ^ 2 == Spec.rotational_inertia a l e.
Proof. unfold Spec.rotational_inertia. simpl. ring. Qed.







(** C9: the divisor of the centre-of-mass computation is [m2 + end_mass].
    With [m2 > 0] and [end_mass >= 0] it is strictly positive and the
    call returns; with [end_mass = -m2] the call raises
    [ZeroDivisionError] and leaves the object as it was. *)
Theorem set_end_mass_division (self : Arm) (end_mass : Q) :
  (0 < m2 self -> 0 <= end_mass ->
     0 < m2 self + end_mass /\
     exists self', set_end_mass end_mass self = (Ok tt, self')) /\
  (end_mass == - m2 self ->
     set_end_mass end_mass self = (Raise ZeroDivisionError, self)).
Proof.
  split.
  - intros Hm He. split; [apply total_mass2_pos; assumption|].
    exists (updated self end_mass). apply set_end_mass_ok.
    apply total_mass2_nonzero; assumption.
  - intros E. apply set_end_mass_zero. apply Qeq_bool_zero. rewrite E. ring.
Qed.


Section WithSolver.

Variable solve : Solver.

Lemma calculate_inverse_dynamics_cases (self : Arm) (q v vd : list Q) :
  calculate_inverse_dynamics solve q v vd self =
    let n := length (joint_axes (plant self)) in
    let c := context self in
    let cq := {| parameter := parameter c; M_link1 := M_link1 c; M_link2 := M_link2 c;
                 positions := q; velocities := velocities c |} in
    let cqv := {| parameter := parameter c; M_link1 := M_link1 c; M_link2 := M_link2 c;
                  positions := q; velocities := v |} in
    if Nat.eqb (length q) n then
      if Nat.eqb (length v) n then
        (if Nat.eqb (length vd) n
         then Ok (solve (plant self) cqv vd (MultibodyForces (plant self)))
         else Raise InvalidStateError,
         set_context cqv self)
      else (Raise InvalidStateError, set_context cq self)
    else (Raise InvalidStateError, self).
Proof.
  unfold calculate_inverse_dynamics, bind, update, gets, SetPositions, SetVelocities,
    CalcInverseDynamics, num_positions, num_velocities. simpl.
  destruct (Nat.eqb (length q) _); simpl; [|reflexivity].
  destruct (Nat.eqb (length v) _); simpl; reflexivity.
Qed.

Lemma calculate_inverse_dynamics_ok (self : Arm) (q v vd : list Q) :
  length q = num_positions (plant self) ->
  length v = num_velocities (plant self) ->
  length vd = num_velocities (plant self) ->
  calculate_inverse_dynamics solve q v vd self =
    let c := {| parameter := parameter (context self);
                M_link1 := M_link1 (context self);
                M_link2 := M_link2 (context self);
                positions := q; velocities := v |} in
    (Ok (solve (plant self) c vd (MultibodyForces (plant self))), set_context c self).
Proof.
  unfold num_positions, num_velocities. intros Hq Hv Hvd.
  rewrite calculate_inverse_dynamics_cases. simpl.
  rewrite Hq, Hv, Hvd, Nat.eqb_refl. reflexivity.
Qed.

Lemma same_model_refl (a : Arm) : same_model a a.
Proof. repeat split. Qed.

Lemma same_model_sym (a b : Arm) : same_model a b -> same_model b a.
Proof. unfold same_model. intuition congruence. Qed.

Lemma same_model_trans (a b c : Arm) :
  same_model a b -> same_model b c -> same_model a c.
Proof. unfold same_model. intuition congruence. Qed.

Lemma calculate_inverse_dynamics_frame (self : Arm) (q v vd : list Q) :
  same_model self (snd (calculate_inverse_dynamics solve q v vd self)).
Proof.
  rewrite calculate_inverse_dynamics_cases. simpl.
  destruct (Nat.eqb (length q) _); [|apply same_model_refl].
  destruct (Nat.eqb (length v) _); repeat split.
Qed.

Lemma calculate_inverse_dynamics_same_model (a b : Arm) (q v vd : list Q) :
  same_model a b ->
  fst (calculate_inverse_dynamics solve q v vd a) =
  fst (calculate_inverse_dynamics solve q v vd b).
Proof.
  intros (_ & _ & _ & _ & Hp & Hpar & H1 & H2).
  rewrite !calculate_inverse_dynamics_cases. simpl.
  rewrite Hp, Hpar, H1, H2.
  destruct (Nat.eqb (length q) _); [|reflexivity].
  destruct (Nat.eqb (length v) _); reflexivity.
Qed.

Lemma set_end_mass_same_model (a b : Arm) (end_mass : Q) :
  same_model a b ->
  fst (set_end_mass end_mass a) = fst (set_end_mass end_mass b) /\
  same_model (snd (set_end_mass end_mass a)) (snd (set_end_mass end_mass b)).
Proof.
  intros S. pose proof S as (E1 & E2 & E3 & E4 & Hp & Hpar & H1 & H2).
  destruct (Qeq_bool (m2 a + end_mass) 0) eqn:Z.
  - rewrite (set_end_mass_zero a end_mass Z).
    rewrite E2 in Z. rewrite (set_end_mass_zero b end_mass Z). split; [reflexivity|exact S].
  - rewrite (set_end_mass_ok a end_mass Z).
    rewrite E2 in Z. rewrite (set_end_mass_ok b end_mass Z).
    split; [reflexivity|]. unfold same_model, updated; simpl.
    rewrite E1, E2, E3, E4, Hp, H1. repeat split.
Qed.

(** C1: with link-2 mass and length positive and [newMass >= 0],
    [set_end_mass newMass] succeeds and leaves as link 2's spatial
    inertia the total mass [m2 + newMass], the centre of mass
    [((m2*l2/2 + newMass*l2) / (m2 + newMass), 0, 0)] and the isotropic
    rotational inertia [m2*(l2/2)^2 + newMass*l2^2]; it records the
    end mass in the parameter, and every later query of the right
    lengths is solved on a context holding exactly this inertia. *)
Theorem set_end_mass_installs_composite_inertia (self : Arm) (newMass : Q) :
  0 < m2 self -> 0 < l2 self -> 0 <= newMass ->
  exists (self' : Arm) (M2 : SpatialInertia) (com I : Q),
    set_end_mass newMass self = (Ok tt, self') /\
    M_link2 (context self') = Some M2 /\
    parameter (context self') = Some [newMass] /\
    mass M2 == Spec.total_mass (m2 self) newMass /\
    p_PScm_E M2 = (com, 0, 0) /\
    com == (m2 self * l2 self / 2 + newMass * l2 self) / (m2 self + newMass) /\
    com == Spec.com_offset (m2 self) (l2 self) newMass /\
    G_SP_E M2 = mkRotationalInertia I I I /\
    I == m2 self * (l2 self / 2) ^ 2 + newMass * l2 self ^ 2 /\
    I == Spec.rotational_inertia (m2 self) (l2 self) newMass /\
    forall q v vd : list Q,
      length q = num_positions (plant self) ->
      length v = num_velocities (plant self) ->
      length vd = num_velocities (plant self) ->
      exists c : Context,
        M_link2 c = Some M2 /\ positions c = q /\ velocities c = v /\
        fst (calculate_inverse_dynamics solve q v vd self') =
          Ok (solve (plant self) c vd (MultibodyForces (plant self))).
Proof.
  intros Hm Hl He.
  pose proof (total_mass2_nonzero _ _ Hm He) as Hnz.
  exists (updated self newMass). eexists. eexists. eexists.
  split; [exact (set_end_mass_ok self newMass Hnz)|].
  split; [reflexivity|]. split; [reflexivity|].
  split; [reflexivity|]. split; [reflexivity|].
  split; [reflexivity|]. split; [apply com2_is_weighted_average|].
  split; [reflexivity|]. split; [reflexivity|].
  split; [apply I2_is_sum_of_inertias|].
  intros q v vd Hq Hv Hvd.
  rewrite (calculate_inverse_dynamics_ok (updated self newMass) q v vd Hq Hv Hvd).
  eexists. split; [|split; [|split; [|reflexivity]]]; reflexivity.
Qed.

(** C4: [set_end_mass] is idempotent.  Calling it twice in succession
    with the same mass gives the same outcome and the same object as
    calling it once, so whatever is run next, a query included, returns
    the same in both cases. *)
Theorem set_end_mass_idempotent (self : Arm) (m : Q) :
  (set_end_mass m ;;; set_end_mass m) self = set_end_mass m self /\
  (forall q v vd,
     (set_end_mass m ;;; set_end_mass m ;;; calculate_inverse_dynamics solve q v vd) self
     = (set_end_mass m ;;; calculate_inverse_dynamics solve q v vd) self) /\
  (forall (A : Type) (next : M Arm A),
     (set_end_mass m ;;; set_end_mass m ;;; next) self = (set_end_mass m ;;; next) self).
Proof.
  assert (G : forall (A : Type) (next : M Arm A),
    (set_end_mass m ;;; set_end_mass m ;;; next) self = (set_end_mass m ;;; next) self).
  { intros A next. unfold bind at 1 3.
    destruct (Qeq_bool (m2 self + m) 0) eqn:Z.
    - rewrite (set_end_mass_zero self m Z). reflexivity.
    - rewrite (set_end_mass_ok self m Z). unfold bind.
      rewrite (set_end_mass_ok (updated self m) m Z). reflexivity. }
  split; [|split].
  - unfold bind.
    destruct (Qeq_bool (m2 self + m) 0) eqn:Z.
    + rewrite (set_end_mass_zero self m Z). reflexivity.
    + rewrite (set_end_mass_ok self m Z).
      rewrite (set_end_mass_ok (updated self m) m Z). reflexivity.
  - intros q v vd. apply G.
  - exact G.
Qed.

(** C8: [calculate_inverse_dynamics] is a function of [q], [v], [vd] and
    the model held by the object: on two objects that agree on the
    model (whatever positions and velocities they were left with) it
    returns the same.  It leaves the end-mass parameter, both link
    inertias, the plant and the four constructor numbers as they were;
    and the positions and velocities it wrote change the outcome of no
    later call, of [calculate_inverse_dynamics] or of [set_end_mass]. *)
Theorem calculate_inverse_dynamics_pure (a b : Arm) (q v vd : list Q) :
  same_model a b ->
  let after := snd (calculate_inverse_dynamics solve q v vd a) in
  fst (calculate_inverse_dynamics solve q v vd a) =
    fst (calculate_inverse_dynamics solve q v vd b) /\
  same_model a after /\
  (forall q' v' vd',
     fst (calculate_inverse_dynamics solve q' v' vd' after) =
     fst (calculate_inverse_dynamics solve q' v' vd' a)) /\
  (forall end_mass,
     fst (set_end_mass end_mass after) = fst (set_end_mass end_mass a) /\
     same_model (snd (set_end_mass end_mass after)) (snd (set_end_mass end_mass a))).
Proof.
  intros S after.
  assert (F : same_model a after) by apply calculate_inverse_dynamics_frame.
  split; [apply calculate_inverse_dynamics_same_model; exact S|].
  split; [exact F|]. split.
  - intros q' v' vd'. apply calculate_inverse_dynamics_same_model.
    apply same_model_sym. exact F.
  - intros end_mass. apply set_end_mass_same_model. apply same_model_sym. exact F.
Qed.

(** C3: on an arm with two joints, [calculate_inverse_dynamics] raises
    [InvalidStateError] whenever [q], [v] or [vd] has a length other
    than 2, and returns torques, raising nothing, when all three have
    length 2. *)
Theorem calculate_inverse_dynamics_lengths (self : Arm) (q v vd : list Q) :
  num_positions (plant self) = 2%nat ->
  ((length q <> 2 \/ length v <> 2 \/ length vd <> 2)%nat ->
     fst (calculate_inverse_dynamics solve q v vd self) = Raise InvalidStateError) /\
  ((length q = 2 /\ length v = 2 /\ length vd = 2)%nat ->
     exists tau, fst (calculate_inverse_dynamics solve q v vd self) = Ok tau).
Proof.
  unfold num_positions. intros J.
  rewrite calculate_inverse_dynamics_cases. simpl. rewrite J. split.
  - intros H.
    destruct (Nat.eqb_spec (length q) 2); [|reflexivity].
    destruct (Nat.eqb_spec (length v) 2); [|reflexivity].
    destruct (Nat.eqb_spec (length vd) 2); [|reflexivity].
    exfalso. destruct H as [H|[H|H]]; contradiction.
  - intros (Hq & Hv & Hvd). rewrite Hq, Hv, Hvd. simpl. eexists. reflexivity.
Qed.

End WithSolver.

(** C5, as the code has it: [set_end_mass] makes no check of the sign of
    its argument.  A negative end mass other than [-m2] is accepted and
    the model is updated by the same formulas; [-m2] raises
    [ZeroDivisionError] before anything is updated; in no case is
    [InvalidStateError] raised. *)
Theorem set_end_mass_sign_unchecked (self : Arm) (end_mass : Q) :
  end_mass < 0 ->
  (m2 self + end_mass == 0 ->
     set_end_mass end_mass self = (Raise ZeroDivisionError, self)) /\
  (~ m2 self + end_mass == 0 ->
     exists self' M2,
       set_end_mass end_mass self = (Ok tt, self') /\
       parameter (context self') = Some [end_mass] /\
       M_link2 (context self') = Some M2 /\
       mass M2 = m2 self + end_mass /\
       p_PScm_E M2 =
         ((m2 self * l2 self / 2 + end_mass * l2 self) / (m2 self + end_mass), 0, 0)) /\
  fst (set_end_mass end_mass self) <> Raise InvalidStateError.
Proof.
  intros _. split; [|split].
  - intros Z. apply set_end_mass_zero. apply Qeq_bool_zero. exact Z.
  - intros NZ. exists (updated self end_mass). eexists.
    split; [apply set_end_mass_ok; apply Qeq_bool_nonzero; exact NZ|].
    repeat split.
  - destruct (Qeq_bool (m2 self + end_mass) 0) eqn:Z.
    + rewrite (set_end_mass_zero _ _ Z). discriminate.
    + rewrite (set_end_mass_ok _ _ Z). discriminate.
Qed.

(** C5, as stated, fails: on the arm of the operator window (m2 = 0.5)
    the end mass -0.1 is accepted and stored, and the end mass -0.5
    raises [ZeroDivisionError]; neither raises [InvalidStateError]. *)
Lemma negative_end_mass_not_rejected :
  ~ Spec.rejects_negative_mass gui_arm (- 0.1) /\
  (exists self', set_end_mass (- 0.1) gui_arm = (Ok tt, self') /\
                 parameter (context self') = Some [- 0.1]) /\
  ~ Spec.rejects_negative_mass gui_arm (- 0.5) /\
  set_end_mass (- 0.5) gui_arm = (Raise ZeroDivisionError, gui_arm).
Proof.
  split; [|split; [|split]].
  - intros H. assert (N : - 0.1 < 0) by reflexivity.
    specialize (H N). vm_compute in H. discriminate.
  - exists (updated gui_arm (- 0.1)). split; reflexivity.
  - intros H. assert (N : - 0.5 < 0) by reflexivity.
    specialize (H N). vm_compute in H. discriminate.
  - reflexivity.
Qed.

Lemma constructed_two_joints (m1 m2 l1 l2 m0 : Q) (self : Arm) :
  __init__ m1 m2 l1 l2 m0 = Ok self -> num_positions (plant self) = 2%nat.
Proof.
  unfold __init__. intros H.
  destruct (Qeq_bool (Arm.m2 (assembled m1 m2 l1 l2) + m0) 0) eqn:Z.
  - rewrite (set_end_mass_zero _ _ Z) in H. discriminate.
  - rewrite (set_end_mass_ok _ _ Z) in H. injection H as <-. reflexivity.
Qed.

(** Witnesses: the theorems at the arm of the operator window. *)

Lemma set_end_mass_division_witness :
  0 < m2 gui_arm /\ 0 <= 2 /\ - 0.5 == - m2 gui_arm /\
  0 < m2 gui_arm + 2 /\
  set_end_mass (- 0.5) gui_arm = (Raise ZeroDivisionError, gui_arm).
Proof.
  assert (H1 : 0 < m2 gui_arm) by reflexivity.
  assert (H2 : 0 <= 2) by discriminate.
  assert (H3 : - 0.5 == - m2 gui_arm) by reflexivity.
  split; [exact H1|]. split; [exact H2|]. split; [exact H3|]. split.
  - exact (proj1 (proj1 (set_end_mass_division gui_arm 2) H1 H2)).
  - exact (proj2 (set_end_mass_division gui_arm (- 0.5)) H3).
Defined.


Lemma set_end_mass_installs_composite_inertia_witness :
  0 < m2 gui_arm /\ 0 < l2 gui_arm /\ 0 <= 2 /\
  exists self' M2,
    set_end_mass 2 gui_arm = (Ok tt, self') /\
    M_link2 (context self') = Some M2 /\
    mass M2 == 2.5.
Proof.
  assert (H1 : 0 < m2 gui_arm) by reflexivity.
  assert (H2 : 0 < l2 gui_arm) by reflexivity.
  assert (H3 : 0 <= 2) by discriminate.
  split; [exact H1|]. split; [exact H2|]. split; [exact H3|].
  destruct (set_end_mass_installs_composite_inertia
              (fun _ _ _ forces => forces) gui_arm 2 H1 H2 H3)
    as (self' & M2 & com & I & E & EM & _ & Em & _).
  exists self', M2. split; [exact E|]. split; [exact EM|].
  rewrite Em. reflexivity.
Defined.

Lemma set_end_mass_sign_unchecked_witness :
  - 0.1 < 0 /\
  exists self', set_end_mass (- 0.1) gui_arm = (Ok tt, self') /\
                parameter (context self') = Some [- 0.1].
Proof.
  assert (N : - 0.1 < 0) by reflexivity.
  assert (NZ : ~ m2 gui_arm + - 0.1 == 0) by discriminate.
  split; [exact N|].
  destruct (proj1 (proj2 (set_end_mass_sign_unchecked gui_arm (- 0.1) N)) NZ)
    as (self' & M2 & E & P & _).
  exists self'. split; [exact E|exact P].
Defined.

(** The same model with other positions and velocities left in it. *)
Lemma calculate_inverse_dynamics_pure_witness :
  let moved := snd (calculate_inverse_dynamics (fun _ _ _ forces => forces)
                      [1; 2] [3; 4] [0; 0] gui_arm) in
  same_model gui_arm moved /\
  positions (context moved) = [1; 2] /\
  fst (calculate_inverse_dynamics (fun _ _ _ forces => forces) [0; 0] [0; 0] [5; 6] gui_arm)
  = fst (calculate_inverse_dynamics (fun _ _ _ forces => forces) [0; 0] [0; 0] [5; 6] moved).
Proof.
  intros moved.
  assert (S : same_model gui_arm moved) by (repeat split).
  split; [exact S|]. split; [reflexivity|].
  exact (proj1 (calculate_inverse_dynamics_pure (fun _ _ _ forces => forces)
                  gui_arm moved [0; 0] [0; 0] [5; 6] S)).
Defined.

Lemma calculate_inverse_dynamics_lengths_witness :
  num_positions (plant gui_arm) = 2%nat /\
  fst (calculate_inverse_dynamics (fun _ _ _ forces => forces) [0; 0; 0] [0; 0] [0; 0] gui_arm)
    = Raise InvalidStateError /\
  exists tau,
    fst (calculate_inverse_dynamics (fun _ _ _ forces => forces) [0; 0] [0; 0] [0; 0] gui_arm)
      = Ok tau.
Proof.
  assert (J : num_positions (plant gui_arm) = 2%nat) by reflexivity.
  split; [exact J|]. split.
  - apply (proj1 (calculate_inverse_dynamics_lengths (fun _ _ _ forces => forces)
                    gui_arm [0; 0; 0] [0; 0] [0; 0] J)).
    left. simpl. discriminate.
  - apply (proj2 (calculate_inverse_dynamics_lengths (fun _ _ _ forces => forces)
                    gui_arm [0; 0] [0; 0] [0; 0] J)).
    repeat split.
Defined.

End ArmFacts.

(** * The shoulder torque under the modelled solver *)
Module StaticsFacts.

Import Drake Arm Session ArmFacts.

Section Trig.

Variables cos sin : Q -> Q.
Hypothesis cos_0 : cos 0 == 1.

(** The horizontal query at rest, made on an arm in any state: whatever
    positions, velocities, end mass and link-2 inertia the arm was left
    with, the query assigns [q = v = [0, 0]] and the update installs
    the end mass before the solver runs. *)
Lemma static_torques_value (m1 m2 l1 l2 m : Q) (self : Arm) :
  0 < m2 -> 0 <= m ->
  same_links (assembled m1 m2 l1 l2) self ->
  exists t_shoulder t_elbow self',
    static_torques (Spec.inverse_dynamics cos sin) m self
      = (Ok [t_shoulder; t_elbow], self') /\
    t_shoulder == 9.81 * (m1 * l1 / 2 + m2 * l2 / 2 + m * l2) /\
    positions (context self') = [0; 0] /\
    velocities (context self') = [0; 0] /\
    parameter (context self') = Some [m].
Proof.
  intros Hm2 Hm (E1 & E2 & E3 & E4 & Ep & EM).
  destruct self as [sm1 sm2 sl1 sl2 sp [par M1 M2 qs vs]]. simpl in *. subst.
  unfold static_torques, bind.
  match goal with
  | |- context [set_end_mass m ?a] =>
      assert (Z : Qeq_bool (Arm.m2 a + m) 0 = false)
        by (apply total_mass2_nonzero; assumption);
      rewrite (set_end_mass_ok a m Z)
  end.
  rewrite calculate_inverse_dynamics_ok by reflexivity.
  do 3 eexists. split; [reflexivity|].
  split; [|split; [reflexivity|split; reflexivity]].
  cbn -[Qplus Qmult Qdiv Qminus Qopp Qinv Qpower].
  change (0 + 0) with 0. rewrite cos_0.
  assert (N : ~ sm2 + m == 0) by (intros E; apply Qeq_bool_zero in E;
    rewrite (total_mass2_nonzero _ _ Hm2 Hm) in E; discriminate).
  field. exact N.
Qed.


(** The scenario of the specification: on the operator window's arm the
    end mass 2 needs more shoulder torque than the end mass 0.5 "by an
    amount consistent with the added 1.5 kg at lever arm l2=0.5 m under
    gravity 9.81". *)
Lemma scenario_torque_difference :
  exists t te t' te',
    fst (static_torques (Spec.inverse_dynamics cos sin) 0.5 gui_arm) = Ok [t; te] /\
    fst (static_torques (Spec.inverse_dynamics cos sin) 2 gui_arm) = Ok [t'; te'] /\
    t' - t == 1.5 * 0.5 * 9.81.
Proof.
  assert (P : 0 < 0.5) by reflexivity.
  assert (N : 0 <= 0.5) by discriminate.
  assert (N' : 0 <= 2) by discriminate.
  assert (L : same_links (assembled 0.5 0.5 0.5 0.5) gui_arm) by (repeat split).
  destruct (static_torques_value 0.5 0.5 0.5 0.5 0.5 gui_arm P N L)
    as (t & te & s & E & V & _).
  destruct (static_torques_value 0.5 0.5 0.5 0.5 2 gui_arm P N' L)
    as (t' & te' & s' & E' & V' & _).
  exists t, te, t', te'. rewrite E, E'. split; [reflexivity|]. split; [reflexivity|].
  rewrite V, V'. reflexivity.
Qed.

End Trig.


End StaticsFacts.

(** * Properties of the control loop *)
Module LoopFacts.

Import Moteus Loop.

Example servos_are : servos = [(1%Z, mkController 1); (2%Z, mkController 2)].
Proof. reflexivity. Qed.

Example stop_commands_are : stop_commands = [Stop 1; Stop 2].
Proof. reflexivity. Qed.

Section Run.

Variable math_sin : Q -> Q.
Variable env : Env.

Lemma cycle_cases (commands : list Command) (w : World) :
  cycle env commands w =
    match reply env (cycles w) commands with
    | Ok r => (Ok r, emit EvComplete (submitted env commands w))
    | Raise e => (Raise e, submitted env commands w)
    end.
Proof. reflexivity. Qed.

(** One iteration, case by case. *)
Lemma body_cases (w : World) :
  body math_sin env w =
    let commands := commands_at math_sin (mkController 1) (mkController 2) (clock w) in
    match reply env (cycles w) commands with
    | Raise e => (Raise e, submitted env commands w)
    | Ok results =>
        let w2 := emit EvComplete (submitted env commands w) in
        match getattr_values results with
        | Raise e => (Raise e, w2)
        | Ok vals =>
            match getitem vals POSITION with
            | Raise e => (Raise e, w2)
            | Ok _ =>
                match rows (iter results) with
                | Raise e => (Raise e, w2)
                | Ok line =>
                    (Ok tt, elapse 0.02 (emit (EvSleep 0.02) (emit (EvPrint line) w2)))
                end
            end
        end
    end.
Proof.
  unfold body, bind, time_time, gets, lift. simpl getservo. cbv iota beta.
  rewrite cycle_cases.
  destruct (reply env (cycles w) _) as [results|e]; [|reflexivity].
  destruct (getattr_values results) as [vals|e]; [|reflexivity].
  destruct (getitem vals POSITION) as [q|e]; [|reflexivity].
  destruct (rows (iter results)) as [line|e]; reflexivity.
Qed.

Lemma body_extends (w : World) :
  exists ext,
    log (snd (body math_sin env w)) =
      log w ++ (clock w, EvSubmit (commands_at math_sin (mkController 1) (mkController 2) (clock w)))
            :: ext.
Proof.
  rewrite body_cases. cbv zeta.
  destruct (reply env (cycles w) _) as [results|e]; [|exists []; reflexivity].
  destruct (getattr_values results) as [vals|e];
    [|eexists; simpl; rewrite <- app_assoc; reflexivity].
  destruct (getitem vals POSITION) as [q|e];
    [|eexists; simpl; rewrite <- app_assoc; reflexivity].
  destruct (rows (iter results)) as [line|e];
    eexists; simpl; rewrite <- !app_assoc; reflexivity.
Qed.

Lemma while_true_extends (n : nat) (w : World) :
  exists ext, log (snd (while_true math_sin env n w)) = log w ++ ext.
Proof.
  revert w. induction n as [|n IH]; intros w.
  - exists []. simpl. rewrite app_nil_r. reflexivity.
  - simpl. unfold bind. destruct (body_extends w) as (ext & E).
    destruct (body math_sin env w) as [[[]|e] w'] eqn:B; simpl in E.
    + destruct (IH w') as (ext' & E'). rewrite E', E, <- app_assoc. 
      eexists. reflexivity.
    + simpl. rewrite E. eexists. reflexivity.
Qed.

(** C6: the first transport cycle of [main] is the stop batch, one stop
    command for every actuator of the bus map and no position command.
    If that cycle raises, nothing else is ever submitted.  If it
    returns, whatever it returns (no response at all included), the
    loop is entered: the next event is the submission of the first
    position batch, after the stop cycle has completed. *)
Theorem main_stops_first (n : nat) (t0 : Q) :
  map servo_of stop_commands = concat (map snd servo_bus_map) /\
  forallb (fun c => negb (is_position c)) stop_commands = true /\
  (exists rest,
     log (snd (main math_sin env n (start t0))) = (t0, EvSubmit stop_commands) :: rest) /\
  (forall e, reply env 0 stop_commands = Raise e ->
     main math_sin env n (start t0) = (Raise e, submitted env stop_commands (start t0))) /\
  (forall r, reply env 0 stop_commands = Ok r ->
     let t1 := t0 + latency env 0 in
     exists rest,
       log (snd (main math_sin env (S n) (start t0))) =
         (t0, EvSubmit stop_commands) :: (t1, EvComplete)
         :: (t1, EvSubmit (commands_at math_sin (mkController 1) (mkController 2) t1))
         :: rest /\
       forallb (fun c => is_position c)
         (commands_at math_sin (mkController 1) (mkController 2) t1) = true).
Proof.
  split; [reflexivity|]. split; [reflexivity|]. split; [|split].
  - unfold main, bind. rewrite cycle_cases.
    destruct (reply env (cycles (start t0)) stop_commands) as [r|e].
    + destruct (while_true_extends n (emit EvComplete (submitted env stop_commands (start t0))))
        as (ext & E).
      rewrite E. simpl. eexists. reflexivity.
    + simpl. eexists. reflexivity.
  - intros e He. unfold main, bind. rewrite cycle_cases. simpl cycles. rewrite He.
    reflexivity.
  - intros r Hr t1. unfold main, bind. rewrite cycle_cases. simpl cycles. rewrite Hr.
    set (w1 := emit EvComplete (submitted env stop_commands (start t0))).
    simpl while_true. unfold bind.
    destruct (body_extends w1) as (ext & E).
    destruct (body math_sin env w1) as [[[]|e] w'] eqn:B; simpl in E.
    + destruct (while_true_extends n w') as (ext' & E').
      rewrite E', E. simpl. eexists. split; reflexivity.
    + simpl. rewrite E. simpl. eexists. split; reflexivity.
Qed.

(** C7, as the code has it: an iteration that runs to its end has
    submitted its commands, awaited the results and printed them, and
    then sleeps for the fixed 20 ms, whatever time the cycle took; the
    next iteration starts from the world the sleep leaves, 20 ms plus
    the cycle's duration after this one started. *)
Theorem iteration_ends_with_fixed_sleep (w w' : World) :
  body math_sin env w = (Ok tt, w') ->
  let t := clock w + latency env (cycles w) in
  (exists commands line,
     log w' = log w ++ [ (clock w, EvSubmit commands); (t, EvComplete);
                         (t, EvPrint line); (t, EvSleep 0.02) ]) /\
  0.02 == Spec.cycle_period /\
  clock w' = t + 0.02 /\
  (forall n, while_true math_sin env (S n) w = while_true math_sin env n w').
Proof.
  intros B t. pose proof B as B'. rewrite body_cases in B. cbv zeta in B.
  destruct (reply env (cycles w) _) as [results|e]; [|discriminate].
  destruct (getattr_values results) as [vals|e]; [|discriminate].
  destruct (getitem vals POSITION) as [q|e]; [|discriminate].
  destruct (rows (iter results)) as [line|e]; [|discriminate].
  injection B as <-. split; [|split; [|split]].
  - do 2 eexists. simpl. rewrite <- !app_assoc. reflexivity.
  - reflexivity.
  - reflexivity.
  - intros n. simpl. unfold bind. rewrite B'. reflexivity.
Qed.

End Run.

(** With results that are a plain list, as the comments in [main]
    describe them, [results.values] raises: the iteration ends there,
    after the cycle, without printing or sleeping. *)
Lemma body_raises_on_list_results
    (math_sin : Q -> Q) (env : Env) (w : World) (rs : list Result) :
  reply env (cycles w)
    (commands_at math_sin (mkController 1) (mkController 2) (clock w)) = Ok (ResultList rs) ->
  body math_sin env w =
    (Raise AttributeError,
     emit EvComplete
       (submitted env (commands_at math_sin (mkController 1) (mkController 2) (clock w)) w)).
Proof. intros H. rewrite body_cases. cbv zeta. rewrite H. reflexivity. Qed.

(** C7, as stated, fails: with a transport that takes 5 ms the iteration
    has spent 5 ms when it goes to sleep, and it sleeps 20 ms, not the
    remaining 15 ms. *)
Lemma sleep_is_not_the_remainder :
  ~ Spec.sleeps_the_remainder (fun _ => 0) bench_env (start 0).
Proof.
  intros H.
  destruct (H (snd (body (fun _ => 0) bench_env (start 0))) eq_refl)
    as (before & t & seconds & L & S).
  change (log (snd (body (fun _ => 0) bench_env (start 0))))
    with ([ (0, EvSubmit (commands_at (fun _ => 0) (mkController 1) (mkController 2) 0));
            (0 + 0.005, EvComplete);
            (0 + 0.005, EvPrint [(1%Z, 0, 0); (2%Z, 0, 0)]) ]
          ++ [(0 + 0.005, EvSleep 0.02)]) in L.
  apply app_inj_tail in L. destruct L as [_ L]. injection L as <- <-.
  vm_compute in S. discriminate.
Qed.

(** The iteration of the fixed-sleep theorem, run on the trial transport. *)
Lemma iteration_ends_with_fixed_sleep_witness :
  body (fun _ => 0) bench_env (start 0)
    = (Ok tt, snd (body (fun _ => 0) bench_env (start 0))) /\
  clock (snd (body (fun _ => 0) bench_env (start 0))) = 0 + 0.005 + 0.02.
Proof.
  split; [reflexivity|].
  exact (proj1 (proj2 (proj2
    (iteration_ends_with_fixed_sleep (fun _ => 0) bench_env (start 0) _ eq_refl)))).
Defined.

(** The stop cycle answered with no response at all. *)
Lemma main_stops_first_witness :
  reply {| reply := fun _ _ => Ok (ResultList []); latency := fun _ => 0.005 |}
        0 stop_commands = Ok (ResultList []) /\
  exists rest,
    log (snd (main (fun _ => 0)
                {| reply := fun _ _ => Ok (ResultList []); latency := fun _ => 0.005 |}
                1 (start 0))) =
      (0, EvSubmit stop_commands) :: (0 + 0.005, EvComplete)
      :: (0 + 0.005, EvSubmit (commands_at (fun _ => 0) (mkController 1) (mkController 2)
                                 (0 + 0.005)))
      :: rest.
Proof.
  split; [reflexivity|].
  destruct (proj2 (proj2 (proj2 (proj2
    (main_stops_first (fun _ => 0)
       {| reply := fun _ _ => Ok (ResultList []); latency := fun _ => 0.005 |} 0 0))))
    (ResultList []) eq_refl) as (rest & E & _).
  exists rest. exact E.
Defined.

End LoopFacts.

(** * Further properties of [Arm]: construction, call sequences, composition *)
Module SessionFacts.

Import Drake Arm Session ArmFacts.

Lemma Qeq_bool_false_nonzero (x : Q) : Qeq_bool x 0 = false -> ~ x == 0.
Proof.
  intros H E. apply Qeq_bool_zero in E. rewrite E in H. discriminate.
Qed.

Lemma set_end_mass_cases (self : Arm) (end_mass : Q) :
  (m2 self + end_mass == 0 /\
   set_end_mass end_mass self = (Raise ZeroDivisionError, self)) \/
  (~ m2 self + end_mass == 0 /\
   set_end_mass end_mass self = (Ok tt, updated self end_mass)).
Proof.
  destruct (Qeq_bool (m2 self + end_mass) 0) eqn:Z.
  - left. split; [apply Qeq_bool_eq; exact Z | apply set_end_mass_zero; exact Z].
  - right. split; [apply Qeq_bool_false_nonzero; exact Z | apply set_end_mass_ok; exact Z].
Qed.

Lemma same_links_refl (a : Arm) : same_links a a.
Proof. repeat split. Qed.

Lemma same_links_trans (a b c : Arm) :
  same_links a b -> same_links b c -> same_links a c.
Proof. unfold same_links. intuition congruence. Qed.

Lemma same_model_same_links (a b : Arm) : same_model a b -> same_links a b.
Proof. unfold same_model, same_links. intuition. Qed.

Lemma set_end_mass_same_links (self : Arm) (end_mass : Q) :
  same_links self (snd (set_end_mass end_mass self)).
Proof.
  destruct (set_end_mass_cases self end_mass) as [[_ E]|[_ E]]; rewrite E;
    repeat split.
Qed.

Lemma consistent_same_model (a b : Arm) :
  same_model a b -> consistent a -> consistent b.
Proof.
  intros (_ & E2 & _ & E4 & _ & Ep & _ & EM) (e & NZ & P & M).
  exists e. split; [rewrite <- E2; exact NZ|].
  split; [rewrite <- Ep; exact P|].
  rewrite <- EM, M. unfold updated. simpl. rewrite E2, E4. reflexivity.
Qed.

Lemma set_end_mass_consistent (self : Arm) (end_mass : Q) :
  consistent self -> consistent (snd (set_end_mass end_mass self)).
Proof.
  intros C. destruct (set_end_mass_cases self end_mass) as [[_ E]|[NZ E]]; rewrite E.
  - exact C.
  - exists end_mass. split; [exact NZ|]. split; reflexivity.
Qed.

Section WithSolver.

Variable solve : Solver.

Lemma call_same_links (c : Call) (self : Arm) : same_links self (call solve c self).
Proof.
  destruct c as [e|q v vd]; simpl.
  - apply set_end_mass_same_links.
  - apply same_model_same_links. apply calculate_inverse_dynamics_frame.
Qed.

Lemma call_consistent (c : Call) (self : Arm) :
  consistent self -> consistent (call solve c self).
Proof.
  destruct c as [e|q v vd]; simpl.
  - apply set_end_mass_consistent.
  - apply consistent_same_model. apply calculate_inverse_dynamics_frame.
Qed.

Lemma calls_same_links (cs : list Call) (self : Arm) :
  same_links self (calls solve cs self).
Proof.
  revert self. induction cs as [|c cs IH]; intros self.
  - apply same_links_refl.
  - simpl. eapply same_links_trans; [apply (call_same_links c)|apply IH].
Qed.

Lemma calls_consistent (cs : list Call) (self : Arm) :
  consistent self -> consistent (calls solve cs self).
Proof.
  revert self. induction cs as [|c cs IH]; intros self C.
  - exact C.
  - simpl. apply IH. apply call_consistent. exact C.
Qed.

Lemma constructed_consistent (m1 m2 l1 l2 m0 : Q) (self : Arm) :
  __init__ m1 m2 l1 l2 m0 = Ok self ->
  consistent self /\ same_links (assembled m1 m2 l1 l2) self.
Proof.
  unfold __init__. intros H.
  destruct (set_end_mass_cases (assembled m1 m2 l1 l2) m0) as [[_ E]|[NZ E]];
    rewrite E in H; [discriminate|]. injection H as <-.
  split; [|repeat split].
  exists m0. split; [exact NZ|]. split; reflexivity.
Qed.

(** X2: whatever sequence of [set_end_mass] and
    [calculate_inverse_dynamics] calls is made on a constructed arm,
    with whatever arguments and whether they return or raise, the
    stored end-mass parameter and link 2's inertia stay the pair that
    [set_end_mass] computes together, and the constructor numbers, the
    plant and link 1's inertia stay as constructed. *)
Theorem calls_keep_model_consistent (m1 m2 l1 l2 m0 : Q) (self : Arm) (cs : list Call) :
  __init__ m1 m2 l1 l2 m0 = Ok self ->
  consistent (calls solve cs self) /\
  same_links self (calls solve cs self) /\
  same_links (assembled m1 m2 l1 l2) (calls solve cs self).
Proof.
  intros I. destruct (constructed_consistent _ _ _ _ _ _ I) as (C & L).
  split; [apply calls_consistent; exact C|].
  split; [apply calls_same_links|].
  eapply same_links_trans; [exact L|apply calls_same_links].
Qed.

Lemma updated_same_model (a b : Arm) (end_mass : Q) :
  same_links a b -> same_model (updated a end_mass) (updated b end_mass).
Proof.
  intros (E1 & E2 & E3 & E4 & Ep & EM). unfold same_model, updated. simpl.
  rewrite E1, E2, E3, E4, Ep, EM. repeat split.
Qed.

(** X3: a query that follows a mass update does not depend on what was
    done to the arm before: after any sequence of calls, [set_end_mass]
    followed by [calculate_inverse_dynamics] returns what it returns on
    the arm as it was before the sequence. *)
Theorem update_then_query_forgets_history
    (self : Arm) (cs : list Call) (end_mass : Q) (q v vd : list Q) :
  fst ((set_end_mass end_mass ;;; calculate_inverse_dynamics solve q v vd)
         (calls solve cs self))
  = fst ((set_end_mass end_mass ;;; calculate_inverse_dynamics solve q v vd) self).
Proof.
  pose proof (calls_same_links cs self) as L.
  set (self' := calls solve cs self) in *.
  pose proof L as (_ & E2 & _).
  unfold bind.
  destruct (set_end_mass_cases self end_mass) as [[Z E]|[NZ E]]; rewrite E.
  - rewrite E2 in Z.
    rewrite (set_end_mass_zero self' end_mass (Qeq_bool_zero _ Z)). reflexivity.
  - rewrite E2 in NZ.
    rewrite (set_end_mass_ok self' end_mass (Qeq_bool_nonzero _ NZ)).
    apply calculate_inverse_dynamics_same_model.
    apply updated_same_model. unfold same_links in *. intuition congruence.
Qed.

(** X4: the later of two mass updates wins.  If both end masses are
    accepted, updating to [a] and then to [b] leaves the object that
    updating to [b] alone leaves; if the second update raises (its end
    mass is [-m2]), the first one stays in force. *)
Theorem later_end_mass_wins (self : Arm) (a b : Q) :
  ~ m2 self + a == 0 ->
  (~ m2 self + b == 0 ->
     (set_end_mass a ;;; set_end_mass b) self = set_end_mass b self) /\
  (m2 self + b == 0 ->
     (set_end_mass a ;;; set_end_mass b) self
     = (Raise ZeroDivisionError, snd (set_end_mass a self)) /\
     parameter (context (snd ((set_end_mass a ;;; set_end_mass b) self))) = Some [a]).
Proof.
  intros NA. pose proof (set_end_mass_ok self a (Qeq_bool_nonzero _ NA)) as EA.
  unfold bind. rewrite EA. split.
  - intros NB. pose proof (Qeq_bool_nonzero _ NB) as B.
    rewrite (set_end_mass_ok (updated self a) b B), (set_end_mass_ok self b B).
    reflexivity.
  - intros ZB. pose proof (Qeq_bool_zero _ ZB) as B.
    rewrite (set_end_mass_zero (updated self a) b B). split; reflexivity.
Qed.

(** X5: a mass update and a query write different parts of the object.
    The update leaves the assigned positions and velocities alone, and
    when the update is accepted and the query has the right lengths,
    doing the two in either order leaves the same object. *)
Theorem update_and_query_commute (self : Arm) (end_mass : Q) (q v vd : list Q) :
  ~ m2 self + end_mass == 0 ->
  length q = num_positions (plant self) ->
  length v = num_velocities (plant self) ->
  length vd = num_velocities (plant self) ->
  positions (context (snd (set_end_mass end_mass self))) = positions (context self) /\
  velocities (context (snd (set_end_mass end_mass self))) = velocities (context self) /\
  snd ((set_end_mass end_mass ;;; calculate_inverse_dynamics solve q v vd) self)
  = snd ((calculate_inverse_dynamics solve q v vd ;;; set_end_mass end_mass) self).
Proof.
  intros NZ Hq Hv Hvd. pose proof (Qeq_bool_nonzero _ NZ) as B.
  unfold bind. rewrite (set_end_mass_ok self end_mass B).
  split; [reflexivity|]. split; [reflexivity|].
  rewrite (calculate_inverse_dynamics_ok solve (updated self end_mass) q v vd Hq Hv Hvd).
  rewrite (calculate_inverse_dynamics_ok solve self q v vd Hq Hv Hvd).
  cbv beta iota zeta.
  match goal with
  | |- context [set_end_mass end_mass ?a] => rewrite (set_end_mass_ok a end_mass B)
  end.
  reflexivity.
Qed.

(** X6: a query that raises is not undone.  The positions are written
    before the velocities are checked and both before [vd] is checked
    (the checks are the toolkit's): a query refused for the length of
    [q] leaves the object untouched, one refused for the length of [v]
    has already replaced the positions, and one refused for the length
    of [vd] has replaced positions and velocities. *)
Theorem refused_query_keeps_what_it_wrote (self : Arm) (q v vd : list Q) :
  let n := num_positions (plant self) in
  let after := snd (calculate_inverse_dynamics solve q v vd self) in
  (length q <> n ->
     calculate_inverse_dynamics solve q v vd self = (Raise InvalidStateError, self)) /\
  (length q = n -> length v <> n ->
     fst (calculate_inverse_dynamics solve q v vd self) = Raise InvalidStateError /\
     positions (context after) = q /\
     velocities (context after) = velocities (context self)) /\
  (length q = n -> length v = n -> length vd <> n ->
     fst (calculate_inverse_dynamics solve q v vd self) = Raise InvalidStateError /\
     positions (context after) = q /\
     velocities (context after) = v).
Proof.
  cbv zeta. unfold num_positions. rewrite calculate_inverse_dynamics_cases. cbv zeta.
  split; [|split].
  - intros H. apply Nat.eqb_neq in H. rewrite H. reflexivity.
  - intros Hq Hv. apply Nat.eqb_neq in Hv. rewrite Hq, Nat.eqb_refl, Hv.
    repeat split.
  - intros Hq Hv Hvd. apply Nat.eqb_neq in Hvd.
    rewrite Hq, Hv, !Nat.eqb_refl, Hvd. repeat split.
Qed.

End WithSolver.

(** Witnesses, on the arm of the operator window. *)

Lemma calls_keep_model_consistent_witness :
  __init__ 0.5 0.5 0.5 0.5 0.5 = Ok gui_arm /\
  consistent
    (calls (fun _ _ _ forces => forces)
       [SetEndMass 2; InverseDynamics [1; 2] [0; 0] [0; 0; 0]; SetEndMass (- 0.5)]
       gui_arm).
Proof.
  split; [reflexivity|].
  exact (proj1 (calls_keep_model_consistent (fun _ _ _ forces => forces)
                  0.5 0.5 0.5 0.5 0.5 gui_arm
                  [SetEndMass 2; InverseDynamics [1; 2] [0; 0] [0; 0; 0]; SetEndMass (- 0.5)]
                  eq_refl)).
Defined.

Lemma later_end_mass_wins_witness :
  ~ m2 gui_arm + 1 == 0 /\ ~ m2 gui_arm + 2 == 0 /\ m2 gui_arm + - 0.5 == 0 /\
  (set_end_mass 1 ;;; set_end_mass 2) gui_arm = set_end_mass 2 gui_arm /\
  parameter (context (snd ((set_end_mass 1 ;;; set_end_mass (- 0.5)) gui_arm))) = Some [1].
Proof.
  assert (N1 : ~ m2 gui_arm + 1 == 0) by discriminate.
  assert (N2 : ~ m2 gui_arm + 2 == 0) by discriminate.
  assert (Z : m2 gui_arm + - 0.5 == 0) by reflexivity.
  split; [exact N1|]. split; [exact N2|]. split; [exact Z|]. split.
  - exact (proj1 (later_end_mass_wins gui_arm 1 2 N1) N2).
  - exact (proj2 (proj2 (later_end_mass_wins gui_arm 1 (- 0.5) N1) Z)).
Defined.

Lemma update_and_query_commute_witness :
  ~ m2 gui_arm + 2 == 0 /\
  length [1; 2] = num_positions (plant gui_arm) /\
  snd ((set_end_mass 2 ;;;
        calculate_inverse_dynamics (fun _ _ _ forces => forces) [1; 2] [3; 4] [0; 0]) gui_arm)
  = snd ((calculate_inverse_dynamics (fun _ _ _ forces => forces) [1; 2] [3; 4] [0; 0] ;;;
          set_end_mass 2) gui_arm).
Proof.
  assert (N : ~ m2 gui_arm + 2 == 0) by discriminate.
  split; [exact N|]. split; [reflexivity|].
  exact (proj2 (proj2 (update_and_query_commute (fun _ _ _ forces => forces)
                         gui_arm 2 [1; 2] [3; 4] [0; 0] N eq_refl eq_refl eq_refl))).
Defined.

Lemma refused_query_keeps_what_it_wrote_witness :
  length [1; 2] = num_positions (plant gui_arm) /\
  length [3] <> num_positions (plant gui_arm) /\
  fst (calculate_inverse_dynamics (fun _ _ _ forces => forces) [1; 2] [3] [0; 0] gui_arm)
    = Raise InvalidStateError /\
  positions (context (snd (calculate_inverse_dynamics (fun _ _ _ forces => forces)
                             [1; 2] [3] [0; 0] gui_arm))) = [1; 2].
Proof.
  assert (Hq : length [1; 2] = num_positions (plant gui_arm)) by reflexivity.
  assert (Hv : length [3] <> num_positions (plant gui_arm)) by discriminate.
  split; [exact Hq|]. split; [exact Hv|].
  destruct (proj1 (proj2 (refused_query_keeps_what_it_wrote
                            (fun _ _ _ forces => forces) gui_arm [1; 2] [3] [0; 0])) Hq Hv)
    as (E & P & _).
  split; [exact E|exact P].
Defined.

End SessionFacts.

(** * Further properties of the control loop: what a run submits and when *)
Module TraceFacts.

Import Moteus Loop Trace LoopFacts.

Lemma submit_times_app (a b : list (Q * Event)) :
  submit_times (a ++ b) = submit_times a ++ submit_times b.
Proof.
  induction a as [|[t e] a IH]; [reflexivity|].
  destruct e; simpl; rewrite IH; reflexivity.
Qed.

Lemma spaced_within_snoc (bound : Q) (ts : list Q) (x y : Q) :
  spaced_within bound (ts ++ [x]) -> y - x < bound ->
  spaced_within bound ((ts ++ [x]) ++ [y]).
Proof.
  induction ts as [|t ts IH]; intros S H.
  - simpl. split; [exact H|exact I].
  - destruct ts as [|t' ts].
    + simpl in *. destruct S as [S1 _]. repeat split; assumption.
    + simpl in S. destruct S as [S1 S2]. simpl. split; [exact S1|].
      apply IH; assumption.
Qed.

Lemma count_events_app (p : Event -> bool) (a b : list (Q * Event)) :
  count_events p (a ++ b) = (count_events p a + count_events p b)%nat.
Proof. unfold count_events. rewrite filter_app, length_app. reflexivity. Qed.

Lemma inject_S (n : nat) :
  inject_Z (Z.of_nat (S n)) == inject_Z (Z.of_nat n) + 1.
Proof. rewrite Nat2Z.inj_succ. unfold Z.succ. rewrite inject_Z_plus. reflexivity. Qed.

Lemma getitem_raises_KeyError (d : list (Register * Q)) (k : Register) (e : exn) :
  getitem d k = Raise e -> e = KeyError.
Proof.
  induction d as [|[k' x] d IH]; simpl.
  - intros H. injection H as <-. reflexivity.
  - destruct (Register_eqb k k'); [discriminate|exact IH].
Qed.

Section Run.

Variable math_sin : Q -> Q.
Variable env : Env.

Local Abbreviation batch_at t := (commands_at math_sin (mkController 1) (mkController 2) t).

(** An iteration that runs to its end, in full. *)
Lemma body_returns (w w' : World) :
  body math_sin env w = (Ok tt, w') ->
  exists line,
    w' = elapse 0.02 (emit (EvSleep 0.02) (emit (EvPrint line)
           (emit EvComplete (submitted env (batch_at (clock w)) w)))).
Proof.
  rewrite body_cases. cbv zeta.
  destruct (reply env (cycles w) _) as [results|e]; [|discriminate].
  destruct (getattr_values results) as [vals|e]; [|discriminate].
  destruct (getitem vals POSITION) as [q|e]; [|discriminate].
  destruct (rows (iter results)) as [line|e]; [|discriminate].
  intros H. injection H as <-. exists line. reflexivity.
Qed.

(** What any iteration adds to the log: its one submission, stamped
    with the time the iteration started at, and then no other. *)
Lemma body_log (w : World) :
  exists tail,
    log (snd (body math_sin env w)) = log w ++ (clock w, EvSubmit (batch_at (clock w))) :: tail /\
    submit_times tail = [] /\
    Forall (running_batch math_sin) tail.
Proof.
  rewrite body_cases. cbv zeta.
  destruct (reply env (cycles w) _) as [results|e].
  2:{ exists []. simpl. repeat split. constructor. }
  destruct (getattr_values results) as [vals|e].
  2:{ eexists. simpl. rewrite <- app_assoc. split; [reflexivity|].
      split; [reflexivity|]. repeat constructor. }
  destruct (getitem vals POSITION) as [q|e].
  2:{ eexists. simpl. rewrite <- app_assoc. split; [reflexivity|].
      split; [reflexivity|]. repeat constructor. }
  destruct (rows (iter results)) as [line|e].
  - eexists. simpl. rewrite <- !app_assoc. split; [reflexivity|].
    split; [reflexivity|]. repeat constructor.
  - eexists. simpl. rewrite <- app_assoc. split; [reflexivity|].
    split; [reflexivity|]. repeat constructor.
Qed.

Lemma while_true_batches (n : nat) (w : World) :
  exists ext,
    log (snd (while_true math_sin env n w)) = log w ++ ext /\
    Forall (running_batch math_sin) ext.
Proof.
  revert w. induction n as [|n IH]; intros w.
  - exists []. simpl. rewrite app_nil_r. split; [reflexivity|constructor].
  - simpl. unfold bind. destruct (body_log w) as (tail & E & _ & F).
    assert (F' : Forall (running_batch math_sin)
                   ((clock w, EvSubmit (batch_at (clock w))) :: tail))
      by (constructor; [reflexivity|exact F]).
    destruct (body math_sin env w) as [[[]|e] w'] eqn:B; simpl in E.
    + destruct (IH w') as (ext & E' & G). rewrite E', E, <- app_assoc.
      eexists. split; [reflexivity|]. apply Forall_app. split; assumption.
    + simpl. rewrite E. eexists. split; [reflexivity|exact F'].
Qed.

Lemma main_cases (n : nat) (t0 : Q) :
  main math_sin env n (start t0) =
    match reply env 0 stop_commands with
    | Ok _ => while_true math_sin env n (stopped env t0)
    | Raise e => (Raise e, submitted env stop_commands (start t0))
    end.
Proof.
  unfold main, bind. rewrite cycle_cases. simpl cycles.
  destruct (reply env 0 stop_commands); reflexivity.
Qed.

(** X8: after its first submission, the stop batch, [main] submits
    nothing but position batches: every later submission is the batch
    of two position commands computed from the very time it is
    submitted at, whatever the transport answered before.  No stop is
    ever sent again. *)
Theorem main_submits_position_batches (n : nat) (t0 : Q) :
  exists rest,
    log (snd (main math_sin env n (start t0))) = (t0, EvSubmit stop_commands) :: rest /\
    Forall (running_batch math_sin) rest /\
    (forall t commands, In (t, EvSubmit commands) rest ->
       forallb is_position commands = true /\ map servo_of commands = [1; 2]%Z).
Proof.
  assert (G : exists rest,
    log (snd (main math_sin env n (start t0))) = (t0, EvSubmit stop_commands) :: rest /\
    Forall (running_batch math_sin) rest).
  { rewrite main_cases. destruct (reply env 0 stop_commands) as [r|e].
    - destruct (while_true_batches n (stopped env t0)) as (ext & E & F).
      rewrite E. simpl. eexists. split; [reflexivity|].
      constructor; [exact I|exact F].
    - simpl. eexists. split; [reflexivity|constructor]. }
  destruct G as (rest & E & F). exists rest. split; [exact E|]. split; [exact F|].
  intros t commands H. rewrite Forall_forall in F. specialize (F _ H).
  unfold running_batch in F. simpl in F. subst commands. split; reflexivity.
Qed.

(** X9: if [math.sin] stays within [-1, 1], every command [main] ever
    submits is a stop or a position command for servo 1 or 2 that
    leaves the position to the servo ([nan]), asks for a reply, and
    commands a velocity within [-0.1, 0.1]. *)
Theorem main_commands_are_gentle (n : nat) (t0 t : Q) (commands : list Command) :
  (forall x, - 1 <= math_sin x /\ math_sin x <= 1) ->
  In (t, EvSubmit commands) (log (snd (main math_sin env n (start t0)))) ->
  Forall (gentle 0.1) commands.
Proof.
  intros B H.
  assert (G : forall te, In te (log (snd (main math_sin env n (start t0)))) ->
                te = (t0, EvSubmit stop_commands) \/ running_batch math_sin te).
  { rewrite main_cases. destruct (reply env 0 stop_commands) as [r|e].
    - destruct (while_true_batches n (stopped env t0)) as (ext & E & F).
      rewrite E. simpl. intros te [<-|[<-|K]]; [left; reflexivity|right; exact I|].
      right. rewrite Forall_forall in F. apply F. exact K.
    - simpl. intros te [<-|[]]. left. reflexivity. }
  destruct (G _ H) as [E|R].
  - injection E as _ ->. repeat constructor.
  - unfold running_batch in R. simpl in R. subst commands.
    destruct (B t) as [L1 U1]. destruct (B (t + 1)) as [L2 U2].
    repeat constructor; simpl; try (left; reflexivity); try (right; reflexivity); lra.
Qed.

Lemma while_true_returns (n : nat) (w w' : World) :
  while_true math_sin env n w = (Ok tt, w') ->
  cycles w' = (cycles w + n)%nat /\
  clock w' == clock w + latencies env (cycles w) n + inject_Z (Z.of_nat n) * 0.02 /\
  count_events is_submit (log w') = (count_events is_submit (log w) + n)%nat /\
  count_events is_print (log w') = (count_events is_print (log w) + n)%nat /\
  count_events is_sleep (log w') = (count_events is_sleep (log w) + n)%nat.
Proof.
  revert w. induction n as [|n IH]; intros w H.
  - simpl in H. injection H as <-. rewrite !Nat.add_0_r. repeat split.
    simpl. ring.
  - simpl in H. unfold bind in H.
    destruct (body math_sin env w) as [[[]|e] w1] eqn:B; [|discriminate].
    destruct (body_returns w w1 B) as (line & ->).
    destruct (IH _ H) as (C & T & S1 & S2 & S3).
    split; [rewrite C; simpl; rewrite Nat.add_succ_r; reflexivity|].
    split.
    { rewrite T. simpl clock. simpl cycles. simpl latencies. rewrite inject_S. ring. }
    rewrite S1, S2, S3. simpl log. rewrite !count_events_app.
    unfold count_events. simpl. repeat split; lia.
Qed.

(** X10: a run of [main] that gets through [n] iterations has called the
    transport [n + 1] times, printed [n] lines and slept [n] times, and
    its clock stands at the start time plus the time the [n + 1] cycles
    took plus [n] times 20 ms. *)
Theorem main_after_n_iterations (n : nat) (t0 : Q) (w' : World) :
  main math_sin env n (start t0) = (Ok tt, w') ->
  cycles w' = S n /\
  clock w' == t0 + latencies env 0 (S n) + inject_Z (Z.of_nat n) * 0.02 /\
  count_events is_submit (log w') = S n /\
  count_events is_print (log w') = n /\
  count_events is_sleep (log w') = n.
Proof.
  rewrite main_cases. destruct (reply env 0 stop_commands) as [r|e]; [|discriminate].
  intros H. destruct (while_true_returns n _ _ H) as (C & T & S1 & S2 & S3).
  split; [exact C|]. split; [rewrite T; simpl; ring|].
  split; [exact S1|]. split; [exact S2|exact S3].
Qed.

Lemma while_true_spaced (n : nat) :
  (forall k, latency env k < 0.08) ->
  forall (w : World) (ts : list Q) (last : Q),
    submit_times (log w) = ts ++ [last] ->
    spaced_within 0.1 (ts ++ [last]) ->
    clock w - last < 0.1 ->
    spaced_within 0.1 (submit_times (log (snd (while_true math_sin env n w)))).
Proof.
  intros L. induction n as [|n IH]; intros w ts last E S H.
  - simpl. rewrite E. exact S.
  - simpl. unfold bind.
    destruct (body_log w) as (tail & EL & NT & _).
    assert (ES : submit_times (log (snd (body math_sin env w)))
                 = (ts ++ [last]) ++ [clock w]).
    { rewrite EL, submit_times_app, E. simpl. rewrite NT. reflexivity. }
    pose proof (spaced_within_snoc 0.1 ts last (clock w) S H) as S'.
    destruct (body math_sin env w) as [[[]|e] w1] eqn:B; simpl in ES.
    + apply (IH w1 (ts ++ [last]) (clock w) ES S').
      destruct (body_returns w w1 B) as (line & ->). simpl clock.
      pose proof (L (cycles w)). lra.
    + simpl. rewrite ES. exact S'.
Qed.

(** X11: if every transport cycle takes less than 80 ms, successive
    submissions of [main] are always less than 100 ms apart, the
    watchdog timeout the comments name: the first position batch
    follows the stop batch by the time of the stop cycle, and every
    later batch follows the one before by its cycle time plus 20 ms. *)
Theorem main_submissions_within_watchdog (n : nat) (t0 : Q) :
  (forall k, latency env k < 0.08) ->
  spaced_within 0.1 (submit_times (log (snd (main math_sin env n (start t0))))).
Proof.
  intros L. rewrite main_cases. destruct (reply env 0 stop_commands) as [r|e].
  - apply (while_true_spaced n L (stopped env t0) [] t0).
    + reflexivity.
    + exact I.
    + simpl. pose proof (L 0%nat). lra.
  - simpl. exact I.
Qed.

(** X12: with a transport that answers the position batch with a plain
    list, as the comments in [main] describe its results, [main] ends
    in the first iteration: [results.values] raises [AttributeError]
    after exactly two transport cycles, and nothing is printed and no
    sleep is made, however long the loop is allowed to run. *)
Theorem main_raises_on_list_results (n : nat) (t0 : Q) (r0 : Results) (rs : list Result) :
  reply env 0 stop_commands = Ok r0 ->
  reply env 1 (batch_at (t0 + latency env 0)) = Ok (ResultList rs) ->
  exists w,
    main math_sin env (S n) (start t0) = (Raise AttributeError, w) /\
    cycles w = 2%nat /\
    log w = [ (t0, EvSubmit stop_commands);
              (t0 + latency env 0, EvComplete);
              (t0 + latency env 0, EvSubmit (batch_at (t0 + latency env 0)));
              (t0 + latency env 0 + latency env 1, EvComplete) ].
Proof.
  intros H0 H1. rewrite main_cases, H0. simpl while_true. unfold bind.
  rewrite body_cases. cbv zeta. simpl cycles. simpl clock. rewrite H1. simpl.
  eexists. split; [reflexivity|]. split; reflexivity.
Qed.

(** [rows] raises nothing but [KeyError]. *)
Lemma rows_raises_KeyError (rs : list Result) (e : exn) :
  rows rs = Raise e -> e = KeyError.
Proof.
  induction rs as [|r rs IH]; simpl; [discriminate|].
  destruct (getitem (values r) POSITION) as [p|e1] eqn:P.
  2:{ intros H. injection H as <-. exact (getitem_raises_KeyError _ _ _ P). }
  destruct (getitem (values r) VELOCITY) as [v|e2] eqn:V.
  2:{ intros H. injection H as <-. exact (getitem_raises_KeyError _ _ _ V). }
  destruct (rows rs) as [t|e3]; [discriminate|].
  intros H. injection H as <-. apply IH. reflexivity.
Qed.

Lemma rows_cases (rs : list Result) :
  if forallb has_registers rs
  then exists line, rows rs = Ok line /\ map (fun x => fst (fst x)) line = map arbitration_id rs
  else rows rs = Raise KeyError.
Proof.
  induction rs as [|r rs IH]; simpl.
  - exists []. split; reflexivity.
  - unfold has_registers at 1.
    destruct (getitem (values r) POSITION) as [p|e1] eqn:P.
    2:{ simpl. rewrite (getitem_raises_KeyError _ _ _ P). reflexivity. }
    destruct (getitem (values r) VELOCITY) as [v|e2] eqn:V.
    2:{ simpl. rewrite (getitem_raises_KeyError _ _ _ V). reflexivity. }
    simpl. destruct (forallb has_registers rs).
    + destruct IH as (line & E & M). rewrite E. eexists. split; [reflexivity|].
      simpl. rewrite M. reflexivity.
    + rewrite IH. reflexivity.
Qed.

(** X13: the line an iteration prints has one entry for every result
    the transport returned, in order and under the result's id, when
    every result carries both the position and the velocity register;
    results may be few or none.  If some result lacks one of the two,
    nothing is printed: the iteration raises [KeyError] right after the
    cycle and does not sleep. *)
Theorem body_prints_every_result
    (w : World) (vals : list (Register * Q)) (q : Q) (rs : list Result) :
  reply env (cycles w) (batch_at (clock w)) = Ok (ResultObject vals rs) ->
  getitem vals POSITION = Ok q ->
  (forallb has_registers rs = true ->
     exists line w',
       body math_sin env w = (Ok tt, w') /\
       In (clock w + latency env (cycles w), EvPrint line) (log w') /\
       map (fun x => fst (fst x)) line = map arbitration_id rs) /\
  (forallb has_registers rs = false ->
     body math_sin env w =
       (Raise KeyError, emit EvComplete (submitted env (batch_at (clock w)) w))).
Proof.
  intros R P. pose proof (rows_cases rs) as C. split; intros F; rewrite F in C.
  - destruct C as (line & E & M). exists line. eexists.
    rewrite body_cases. cbv zeta. rewrite R. simpl getattr_values. cbv iota beta.
    rewrite P. simpl iter. rewrite E. split; [reflexivity|]. split; [|exact M].
    simpl. rewrite !in_app_iff. left. right. left. reflexivity.
  - rewrite body_cases. cbv zeta. rewrite R. simpl getattr_values. cbv iota beta.
    rewrite P. simpl iter. rewrite C. reflexivity.
Qed.

End Run.

(** Witnesses, on the trial transport and on one that answers with
    plain lists. *)

Lemma main_submits_position_batches_witness :
  exists rest,
    log (snd (main (fun _ => 0) bench_env 2 (start 0)))
      = (0, EvSubmit stop_commands) :: rest /\
    Forall (running_batch (fun _ => 0)) rest.
Proof.
  destruct (main_submits_position_batches (fun _ => 0) bench_env 2 0)
    as (rest & E & F & _).
  exists rest. split; [exact E|exact F].
Defined.

Lemma main_commands_are_gentle_witness :
  (forall x : Q, - 1 <= (fun _ : Q => 0) x /\ (fun _ : Q => 0) x <= 1) /\
  In (0 + 0.005, EvSubmit (commands_at (fun _ => 0) (mkController 1) (mkController 2)
                             (0 + 0.005)))
     (log (snd (main (fun _ => 0) bench_env 1 (start 0)))) /\
  Forall (gentle 0.1)
    (commands_at (fun _ => 0) (mkController 1) (mkController 2) (0 + 0.005)).
Proof.
  assert (B : forall x : Q, - 1 <= (fun _ : Q => 0) x /\ (fun _ : Q => 0) x <= 1)
    by (intros x; split; discriminate).
  assert (M : In (0 + 0.005,
                  EvSubmit (commands_at (fun _ => 0) (mkController 1) (mkController 2)
                              (0 + 0.005)))
                 (log (snd (main (fun _ => 0) bench_env 1 (start 0)))))
    by (right; right; left; reflexivity).
  split; [exact B|]. split; [exact M|].
  exact (main_commands_are_gentle (fun _ => 0) bench_env 1 0 _ _ B M).
Defined.

Lemma main_after_n_iterations_witness :
  main (fun _ => 0) bench_env 2 (start 0)
    = (Ok tt, snd (main (fun _ => 0) bench_env 2 (start 0))) /\
  cycles (snd (main (fun _ => 0) bench_env 2 (start 0))) = 3%nat /\
  clock (snd (main (fun _ => 0) bench_env 2 (start 0))) == 0.055.
Proof.
  assert (R : main (fun _ => 0) bench_env 2 (start 0)
              = (Ok tt, snd (main (fun _ => 0) bench_env 2 (start 0)))) by reflexivity.
  split; [exact R|].
  destruct (main_after_n_iterations (fun _ => 0) bench_env 2 0 _ R) as (C & T & _).
  split; [exact C|]. rewrite T. reflexivity.
Defined.

Lemma main_submissions_within_watchdog_witness :
  (forall k, latency bench_env k < 0.08) /\
  spaced_within 0.1 (submit_times (log (snd (main (fun _ => 0) bench_env 3 (start 0))))).
Proof.
  assert (L : forall k, latency bench_env k < 0.08) by (intros k; reflexivity).
  split; [exact L|].
  exact (main_submissions_within_watchdog (fun _ => 0) bench_env 3 0 L).
Defined.

Lemma main_raises_on_list_results_witness :
  exists w,
    main (fun _ => 0)
      {| reply := fun _ _ => Ok (ResultList [mkResult 1 [(POSITION, 0); (VELOCITY, 0)]]);
         latency := fun _ => 0.005 |}
      5 (start 0) = (Raise AttributeError, w) /\
    cycles w = 2%nat.
Proof.
  destruct (main_raises_on_list_results (fun _ => 0)
              {| reply := fun _ _ => Ok (ResultList [mkResult 1 [(POSITION, 0); (VELOCITY, 0)]]);
                 latency := fun _ => 0.005 |}
              4 0 _ _ eq_refl eq_refl) as (w & E & C & _).
  exists w. split; [exact E|exact C].
Defined.

Lemma body_prints_every_result_witness :
  forallb has_registers [mkResult 2 [(POSITION, 1); (VELOCITY, 0)]] = true /\
  forallb has_registers [mkResult 2 [(POSITION, 1)]] = false /\
  (exists line w',
     body (fun _ => 0)
       {| reply := fun _ _ =>
            Ok (ResultObject [(POSITION, 0)] [mkResult 2 [(POSITION, 1); (VELOCITY, 0)]]);
          latency := fun _ => 0.005 |} (start 0) = (Ok tt, w') /\
     map (fun x : Z * Q * Q => fst (fst x)) line = [2%Z]) /\
  body (fun _ => 0)
    {| reply := fun _ _ => Ok (ResultObject [(POSITION, 0)] [mkResult 2 [(POSITION, 1)]]);
       latency := fun _ => 0.005 |} (start 0)
  = (Raise KeyError,
     emit EvComplete
       (submitted
          {| reply := fun _ _ => Ok (ResultObject [(POSITION, 0)] [mkResult 2 [(POSITION, 1)]]);
             latency := fun _ => 0.005 |}
          (commands_at (fun _ => 0) (mkController 1) (mkController 2) 0) (start 0))).
Proof.
  split; [reflexivity|]. split; [reflexivity|]. split.
  - destruct (proj1 (body_prints_every_result (fun _ => 0)
       {| reply := fun _ _ =>
            Ok (ResultObject [(POSITION, 0)] [mkResult 2 [(POSITION, 1); (VELOCITY, 0)]]);
          latency := fun _ => 0.005 |} (start 0) _ 0 _ eq_refl eq_refl) eq_refl)
      as (line & w' & E & _ & M).
    exists line, w'. split; [exact E|exact M].
  - exact (proj2 (body_prints_every_result (fun _ => 0)
       {| reply := fun _ _ => Ok (ResultObject [(POSITION, 0)] [mkResult 2 [(POSITION, 1)]]);
          latency := fun _ => 0.005 |} (start 0) _ 0 _ eq_refl eq_refl) eq_refl).
Defined.

End TraceFacts.

(** * The operator window *)
Module ControlGUIFacts.

Import Drake Arm ControlGUI ArmFacts.
Import String.

Lemma load_values_positive : Forall (fun l => 0 < l) load_values.
Proof. repeat constructor. Qed.

Section Format.

Variable format_1f : Q -> String.string.

(** X15: [set_load] never gets past its first statement.  It passes the
    load to the arm's [set_end_mass] and then awaits the [None] that
    call returned, which raises [TypeError]; so the slot never returns
    normally, the load label and the printed output stay as they were,
    and the arm is left as [set_end_mass] leaves it.  For an arm with
    [m2 > 0] every button of the window therefore installs its load in
    the arm (none of them is rejected) while the label keeps its old
    text. *)
Theorem set_load_leaves_label (self : ArmControlGUI) (load_value : Q) :
  let done := set_load format_1f load_value self in
  fst done <> Returned /\
  load_label (snd done) = load_label self /\
  stdout (snd done) = stdout self /\
  arm (snd done) = snd (set_end_mass load_value (arm self)) /\
  (0 < m2 (arm self) ->
   forall i load,
     nth_error load_values i = Some load ->
     fst (click format_1f i self) = TypeError /\
     parameter (context (arm (snd (click format_1f i self)))) = Some [load] /\
     load_label (snd (click format_1f i self)) = load_label self).
Proof.
  cbv zeta. unfold set_load.
  split; [|split; [|split; [|split]]].
  - destruct (set_end_mass load_value (arm self)) as [[[]|e] a]; simpl; discriminate.
  - destruct (set_end_mass load_value (arm self)) as [[[]|e] a]; reflexivity.
  - destruct (set_end_mass load_value (arm self)) as [[[]|e] a]; reflexivity.
  - destruct (set_end_mass load_value (arm self)) as [[[]|e] a]; reflexivity.
  - intros Hm i load Hi. unfold click. rewrite Hi. unfold set_load.
    assert (P : 0 < load).
    { pose proof load_values_positive as F. rewrite Forall_forall in F.
      apply F. eapply nth_error_In. exact Hi. }
    assert (B : Qeq_bool (m2 (arm self) + load) 0 = false)
      by (apply total_mass2_nonzero; [exact Hm|lra]).
    rewrite (set_end_mass_ok (arm self) load B). simpl. repeat split.
Qed.

End Format.

(** The window on the arm it is started with, its third button clicked. *)
Lemma set_load_leaves_label_witness :
  0 < m2 (arm (ControlGUI.__init__ gui_arm)) /\
  nth_error load_values 2 = Some 2.0 /\
  fst (click (fun _ => EmptyString) 2 (ControlGUI.__init__ gui_arm)) = TypeError /\
  parameter (context (arm (snd (click (fun _ => EmptyString) 2 (ControlGUI.__init__ gui_arm)))))
    = Some [2.0] /\
  load_label (snd (click (fun _ => EmptyString) 2 (ControlGUI.__init__ gui_arm)))
    = "Current Load: 0.2 kg"%string.
Proof.
  assert (H : 0 < m2 (arm (ControlGUI.__init__ gui_arm))) by reflexivity.
  split; [exact H|]. split; [reflexivity|].
  exact (proj2 (proj2 (proj2 (proj2
    (set_load_leaves_label (fun _ => EmptyString) (ControlGUI.__init__ gui_arm) 0)))) H 2%nat 2.0 eq_refl).
Defined.

End ControlGUIFacts.

(** * The centre of mass on floats *)
Module Binary64Facts.

Import PrimFloat Binary64.


End Binary64Facts.
